(** * Roads API client (roads.go): snap-to-road and speed-limits requests

    A shallow embedding of [SnapToRoad], [SpeedLimits], [doGetSnapToRoad]
    and [doGetSpeedLimits] together with the request and response structs
    of roads.go.

    - [url.Values] is a finite map from parameter names to the list of
      their values ([gmap string (list string)]).
    - A Go result pair (pointer, error) is a pair of options: [None] is [nil].
    - The collaborators of the client ([generateAuthQuery], [httpDo]) are
      fields of the [Client] record; every call of one of them is recorded
      in a trace of events, so that "no HTTP call is made" is a statement
      about the trace.
    - The goroutine and the [select] of the two public operations are a
      labelled transition function on a small configuration. *)

From stdpp Require Import base option list strings gmap.
From Stdlib Require Import ZArith Ascii String Lia.

Set Warnings "-clear-no-such-hyp".

Local Open Scope string_scope.
Local Open Scope Z_scope.

(** ** Errors *)

(** Go [error] values.  [errorString] is what [errors.New] builds; the two
    JSON constructors are the errors of [encoding/json]; [Canceled] and
    [DeadlineExceeded] are the two reasons a context reports; [opaque] is
    any error value made by a collaborator. *)
Inductive error : Type :=
| errorString (s : string)
| SyntaxError (msg : string)
| UnmarshalTypeError (value : string) (gotype : string)
| Canceled
| DeadlineExceeded
| opaque (descr : string).

#[global] Instance error_eq_dec : EqDecision error.
Proof. solve_decision. Defined.

Definition errors_New (s : string) : error := errorString s.

(** ** [strings.Join] *)

Fixpoint Join (elems : list string) (sep : string) : string :=
  match elems with
  | [] => ""
  | [e] => e
  | e :: rest => e +:+ sep +:+ Join rest sep
  end.

(** ** [url.Values] *)

Abbreviation Values := (gmap string (list string)).

(** [v.Set(key, value)]: the key is bound to the one-element list. *)
Definition Values_Set (v : Values) (key value : string) : Values :=
  <[key := [value]]> v.

(** [v.Add(key, value)]: [v[key] = append(v[key], value)]. *)
Definition Values_Add (v : Values) (key value : string) : Values :=
  <[key := (default [] (v !! key) ++ [value])%list]> v.

(** A parameter is sent when its key is bound in the map. *)
Definition has_param (v : Values) (key : string) : Prop := is_Some (v !! key).

(** ** HTTP requests and responses *)

Record URL : Type := mkURL {
  URL_Path : string;
  URL_RawQuery : string
}.

Record Request : Type := mkRequest {
  Request_Method : string;
  Request_URL : URL
}.

(** JSON documents, as [encoding/json] sees them once the text is
    tokenised.  A number keeps its literal text: whether it fits an [int]
    or a [float64] is decided by the field it is stored into. *)
#[warning="-register-all"] Inductive json : Type :=
| JNull
| JBool (b : bool)
| JNumber (lit : string)
| JString (s : string)
| JArray (elems : list json)
| JObject (members : list (string * json)).

(** A response body: the first JSON value of the stream, or the error the
    decoder reports when the stream does not start with a well-formed
    value (syntax error, unexpected end of input, read error). *)
Inductive body : Type :=
| Document (v : json)
| Malformed (e : error).

Record Response : Type := mkResponse {
  Response_Body : body
}.

(** ** The library functions the file relies on

    [float64] values with their parser and printer ([strconv]), the
    case-folding comparison [encoding/json] uses to match object keys with
    struct fields, [http.NewRequest] and the query parser behind
    [URL.Query].  They are taken as an interface: every theorem holds for
    all of its implementations. *)
Class Runtime : Type := {
  float64 : Type;
  float64_zero : float64;
  ParseFloat : string -> option float64;
  FormatFloat : float64 -> string;
  equalFold : string -> string -> bool;
  NewRequest : string -> string -> error + Request;
  ParseQuery : string -> Values
}.

(** [req.URL.Query()] *)
Definition URL_Query `{Runtime} (u : URL) : Values := ParseQuery (URL_RawQuery u).

(** ** Coordinates *)

(** Modelled from the spec: the struct [LatLng] is declared in a file that
    is not part of the sources at hand; the spec gives it as a
    latitude/longitude pair of floating-point numbers. *)
Record LatLng `{Runtime} : Type := mkLatLng {
  LatLng_Lat : float64;
  LatLng_Lng : float64
}.

(** Modelled from the spec: [LatLng.String] is declared in a file that is
    not part of the sources at hand; the spec gives the canonical form
    "lat,lng". *)
Definition LatLng_String `{Runtime} (l : LatLng) : string :=
  FormatFloat (LatLng_Lat l) +:+ "," +:+ FormatFloat (LatLng_Lng l).

(** ** Request and response structs *)

Record SnapToRoadRequest `{Runtime} : Type := mkSnapToRoadRequest {
  SnapToRoadRequest_Path : list LatLng;
  SnapToRoadRequest_Interpolate : bool
}.

(** [OriginalIndex *int]: [None] is the nil pointer. *)
Record SnappedPoint `{Runtime} : Type := mkSnappedPoint {
  SnappedPoint_Location : LatLng;
  SnappedPoint_OriginalIndex : option Z;
  SnappedPoint_PlaceID : string
}.

(** A slice is modelled by the list of its elements (a nil slice and an
    empty one are both [[]]). *)
Record SnapToRoadResponse `{Runtime} : Type := mkSnapToRoadResponse {
  SnapToRoadResponse_SnappedPoints : list SnappedPoint
}.

(** [type speedLimitUnit string] *)
Abbreviation speedLimitUnit := string (only parsing).

Definition SpeedLimitMPH : string := "MPH".
Definition SpeedLimitKPH : string := "KPH".

Record SpeedLimitsRequest `{Runtime} : Type := mkSpeedLimitsRequest {
  SpeedLimitsRequest_Path : list LatLng;
  SpeedLimitsRequest_PlaceID : list string;
  SpeedLimitsRequest_Units : speedLimitUnit
}.

Record SpeedLimit `{Runtime} : Type := mkSpeedLimit {
  SpeedLimit_PlaceID : string;
  SpeedLimit_SpeedLimit : float64;
  SpeedLimit_Units : speedLimitUnit
}.

Record SpeedLimitsResponse `{Runtime} : Type := mkSpeedLimitsResponse {
  SpeedLimitsResponse_SpeedLimits : list SpeedLimit;
  SpeedLimitsResponse_SnappedPoints : list SnappedPoint
}.

(** ** [encoding/json]: decoding into the structs of this file *)

(** [strconv.ParseInt(s, 10, 64)]: an optional sign, at least one decimal
    digit and nothing else, and a value that fits 64 bits. *)
Definition digit_of (c : ascii) : option Z :=
  let n := Z.of_N (N_of_ascii c) in
  if (48 <=? n) && (n <=? 57) then Some (n - 48) else None.

Fixpoint parse_digits (s : string) (acc : Z) : option Z :=
  match s with
  | EmptyString => Some acc
  | String c rest =>
      match digit_of c with
      | Some d => parse_digits rest (10 * acc + d)
      | None => None
      end
  end.

Definition ParseInt (s : string) : option Z :=
  let '(neg, ds) :=
    match s with
    | String "-"%char rest => (true, rest)
    | String "+"%char rest => (false, rest)
    | _ => (false, s)
    end in
  match ds with
  | EmptyString => None
  | _ =>
      match parse_digits ds 0 with
      | Some n =>
          let v := if neg then - n else n in
          if (- 2 ^ 63 <=? v) && (v <=? 2 ^ 63 - 1) then Some v else None
      | None => None
      end
  end.

(** The decoder keeps the first error it meets and goes on decoding. *)
Definition saveError (saved e : option error) : option error :=
  match saved with
  | Some _ => saved
  | None => e
  end.

(** The word an [UnmarshalTypeError] uses for the JSON value it met. *)
Definition describe (v : json) : string :=
  match v with
  | JNull => "null"
  | JBool _ => "bool"
  | JNumber _ => "number"
  | JString _ => "string"
  | JArray _ => "array"
  | JObject _ => "object"
  end.

(** Each decoder takes the JSON value and the current content of the
    destination, and gives the new content and the error saved, if any.
    [null] leaves a string, a number or a struct as it is, and resets a
    pointer or a slice to nil. *)
Definition decode_string (gotype : string) (v : json) (cur : string)
  : string * option error :=
  match v with
  | JString s => (s, None)
  | JNull => (cur, None)
  | _ => (cur, Some (UnmarshalTypeError (describe v) gotype))
  end.

Definition decode_float64 `{Runtime} (v : json) (cur : float64)
  : float64 * option error :=
  match v with
  | JNumber lit =>
      match ParseFloat lit with
      | Some f => (f, None)
      | None => (cur, Some (UnmarshalTypeError ("number " +:+ lit) "float64"))
      end
  | JNull => (cur, None)
  | _ => (cur, Some (UnmarshalTypeError (describe v) "float64"))
  end.

Definition decode_int (v : json) (cur : Z) : Z * option error :=
  match v with
  | JNumber lit =>
      match ParseInt lit with
      | Some n => (n, None)
      | None => (cur, Some (UnmarshalTypeError ("number " +:+ lit) "int"))
      end
  | JNull => (cur, None)
  | _ => (cur, Some (UnmarshalTypeError (describe v) "int"))
  end.

(** A [*int] destination: [null] stores nil; any other value first makes
    the pointer non-nil (a fresh 0 when it was nil) and then decodes into
    the integer it points to. *)
Definition decode_int_ptr (v : json) (cur : option Z) : option Z * option error :=
  match v with
  | JNull => (None, None)
  | _ => let '(n, e) := decode_int v (default 0 cur) in (Some n, e)
  end.

(** The struct field an object key is stored into: the field whose name
    is the key, else the first field whose name equals it up to case
    folding, else none (the member is skipped). *)
Definition lookupField `{Runtime} {F : Type} (fields : list (string * F))
    (key : string) : option F :=
  match List.find (fun f => String.eqb (fst f) key) fields with
  | Some f => Some (snd f)
  | None => snd <$> List.find (fun f => equalFold (fst f) key) fields
  end.

(** The key selects a field of that name, exactly or up to case
    folding. *)
Definition key_matches `{Runtime} (name key : string) : bool :=
  String.eqb name key || equalFold name key.

(** The members of an object are stored one after the other, in order. *)
Fixpoint decode_members {A : Type}
    (decode_field : string -> json -> A -> A * option error)
    (members : list (string * json)) (cur : A) : A * option error :=
  match members with
  | [] => (cur, None)
  | (key, v) :: rest =>
      let '(a, e) := decode_field key v cur in
      let '(a', e') := decode_members decode_field rest a in
      (a', saveError e e')
  end.

Definition decode_struct {A : Type} (gotype : string)
    (decode_field : string -> json -> A -> A * option error)
    (v : json) (cur : A) : A * option error :=
  match v with
  | JObject members => decode_members decode_field members cur
  | JNull => (cur, None)
  | _ => (cur, Some (UnmarshalTypeError (describe v) gotype))
  end.

(** The elements of an array are decoded into the elements the slice
    already has, index by index, and into zero values beyond its length;
    the slice ends with the length of the array. *)
Fixpoint decode_elems {A : Type}
    (decode_elem : json -> A -> A * option error) (zero : A)
    (elems : list json) (cur : list A) : list A * option error :=
  match elems with
  | [] => ([], None)
  | v :: rest =>
      let '(a, e) := decode_elem v (hd zero cur) in
      let '(l, e') := decode_elems decode_elem zero rest (tl cur) in
      (a :: l, saveError e e')
  end.

Definition decode_slice {A : Type} (gotype : string)
    (decode_elem : json -> A -> A * option error) (zero : A)
    (v : json) (cur : list A) : list A * option error :=
  match v with
  | JArray elems => decode_elems decode_elem zero elems cur
  | JNull => ([], None)
  | _ => (cur, Some (UnmarshalTypeError (describe v) gotype))
  end.

(** *** [LatLng] *)

Inductive LatLng_field : Type := LatLng_lat | LatLng_lng.

(** Modelled from the spec: the struct tags of [LatLng] are declared in
    a file that is not part of the sources at hand; the spec gives the
    wire form of a location as an object with members lat and lng. *)
Definition LatLng_fields : list (string * LatLng_field) :=
  [("lat", LatLng_lat); ("lng", LatLng_lng)].

Definition LatLng_zero `{Runtime} : LatLng := mkLatLng _ float64_zero float64_zero.

Definition decode_LatLng_field `{Runtime} (key : string) (v : json) (cur : LatLng)
  : LatLng * option error :=
  match lookupField LatLng_fields key with
  | Some LatLng_lat =>
      let '(x, e) := decode_float64 v (LatLng_Lat cur) in
      (mkLatLng _ x (LatLng_Lng cur), e)
  | Some LatLng_lng =>
      let '(x, e) := decode_float64 v (LatLng_Lng cur) in
      (mkLatLng _ (LatLng_Lat cur) x, e)
  | None => (cur, None)
  end.

Definition decode_LatLng `{Runtime} : json -> LatLng -> LatLng * option error :=
  decode_struct "maps.LatLng" decode_LatLng_field.

(** *** [SnappedPoint] *)

Inductive SnappedPoint_field : Type :=
| SnappedPoint_location
| SnappedPoint_originalIndex
| SnappedPoint_placeId.

Definition SnappedPoint_fields : list (string * SnappedPoint_field) :=
  [("location", SnappedPoint_location);
   ("originalIndex", SnappedPoint_originalIndex);
   ("placeId", SnappedPoint_placeId)].

Definition SnappedPoint_zero `{Runtime} : SnappedPoint :=
  mkSnappedPoint _ LatLng_zero None "".

Definition decode_SnappedPoint_field `{Runtime} (key : string) (v : json)
    (cur : SnappedPoint) : SnappedPoint * option error :=
  match lookupField SnappedPoint_fields key with
  | Some SnappedPoint_location =>
      let '(x, e) := decode_LatLng v (SnappedPoint_Location cur) in
      (mkSnappedPoint _ x (SnappedPoint_OriginalIndex cur) (SnappedPoint_PlaceID cur), e)
  | Some SnappedPoint_originalIndex =>
      let '(x, e) := decode_int_ptr v (SnappedPoint_OriginalIndex cur) in
      (mkSnappedPoint _ (SnappedPoint_Location cur) x (SnappedPoint_PlaceID cur), e)
  | Some SnappedPoint_placeId =>
      let '(x, e) := decode_string "string" v (SnappedPoint_PlaceID cur) in
      (mkSnappedPoint _ (SnappedPoint_Location cur) (SnappedPoint_OriginalIndex cur) x, e)
  | None => (cur, None)
  end.

Definition decode_SnappedPoint `{Runtime}
  : json -> SnappedPoint -> SnappedPoint * option error :=
  decode_struct "maps.SnappedPoint" decode_SnappedPoint_field.

(** *** [SnapToRoadResponse] *)

Definition SnapToRoadResponse_zero `{Runtime} : SnapToRoadResponse :=
  mkSnapToRoadResponse _ [].

Definition decode_SnapToRoadResponse_field `{Runtime} (key : string) (v : json)
    (cur : SnapToRoadResponse) : SnapToRoadResponse * option error :=
  match lookupField [("snappedPoints", tt)] key with
  | Some tt =>
      let '(x, e) :=
        decode_slice "[]maps.SnappedPoint" decode_SnappedPoint SnappedPoint_zero
          v (SnapToRoadResponse_SnappedPoints cur) in
      (mkSnapToRoadResponse _ x, e)
  | None => (cur, None)
  end.

(** [json.NewDecoder(resp.Body).Decode(response)] for a
    [*SnapToRoadResponse]: a body that is not well-formed JSON leaves the
    struct untouched; otherwise the value is stored field by field. *)
Definition Decode_SnapToRoadResponse `{Runtime} (b : body)
    (response : SnapToRoadResponse) : SnapToRoadResponse * option error :=
  match b with
  | Malformed e => (response, Some e)
  | Document v =>
      decode_struct "maps.SnapToRoadResponse" decode_SnapToRoadResponse_field
        v response
  end.

(** *** [SpeedLimit] and [SpeedLimitsResponse] *)

Inductive SpeedLimit_field : Type :=
| SpeedLimit_placeId
| SpeedLimit_speedLimit
| SpeedLimit_units.

Definition SpeedLimit_fields : list (string * SpeedLimit_field) :=
  [("placeId", SpeedLimit_placeId);
   ("speedLimit", SpeedLimit_speedLimit);
   ("units", SpeedLimit_units)].

Definition SpeedLimit_zero `{Runtime} : SpeedLimit :=
  mkSpeedLimit _ "" float64_zero "".

Definition decode_SpeedLimit_field `{Runtime} (key : string) (v : json)
    (cur : SpeedLimit) : SpeedLimit * option error :=
  match lookupField SpeedLimit_fields key with
  | Some SpeedLimit_placeId =>
      let '(x, e) := decode_string "string" v (SpeedLimit_PlaceID cur) in
      (mkSpeedLimit _ x (SpeedLimit_SpeedLimit cur) (SpeedLimit_Units cur), e)
  | Some SpeedLimit_speedLimit =>
      let '(x, e) := decode_float64 v (SpeedLimit_SpeedLimit cur) in
      (mkSpeedLimit _ (SpeedLimit_PlaceID cur) x (SpeedLimit_Units cur), e)
  | Some SpeedLimit_units =>
      let '(x, e) := decode_string "maps.speedLimitUnit" v (SpeedLimit_Units cur) in
      (mkSpeedLimit _ (SpeedLimit_PlaceID cur) (SpeedLimit_SpeedLimit cur) x, e)
  | None => (cur, None)
  end.

Definition decode_SpeedLimit `{Runtime}
  : json -> SpeedLimit -> SpeedLimit * option error :=
  decode_struct "maps.SpeedLimit" decode_SpeedLimit_field.

Inductive SpeedLimitsResponse_field : Type :=
| SpeedLimitsResponse_speedLimits
| SpeedLimitsResponse_snappedPoints.

Definition SpeedLimitsResponse_fields : list (string * SpeedLimitsResponse_field) :=
  [("speedLimits", SpeedLimitsResponse_speedLimits);
   ("snappedPoints", SpeedLimitsResponse_snappedPoints)].

Definition SpeedLimitsResponse_zero `{Runtime} : SpeedLimitsResponse :=
  mkSpeedLimitsResponse _ [] [].

Definition decode_SpeedLimitsResponse_field `{Runtime} (key : string) (v : json)
    (cur : SpeedLimitsResponse) : SpeedLimitsResponse * option error :=
  match lookupField SpeedLimitsResponse_fields key with
  | Some SpeedLimitsResponse_speedLimits =>
      let '(x, e) :=
        decode_slice "[]maps.SpeedLimit" decode_SpeedLimit SpeedLimit_zero
          v (SpeedLimitsResponse_SpeedLimits cur) in
      (mkSpeedLimitsResponse _ x (SpeedLimitsResponse_SnappedPoints cur), e)
  | Some SpeedLimitsResponse_snappedPoints =>
      let '(x, e) :=
        decode_slice "[]maps.SnappedPoint" decode_SnappedPoint SnappedPoint_zero
          v (SpeedLimitsResponse_SnappedPoints cur) in
      (mkSpeedLimitsResponse _ (SpeedLimitsResponse_SpeedLimits cur) x, e)
  | None => (cur, None)
  end.

Definition Decode_SpeedLimitsResponse `{Runtime} (b : body)
    (response : SpeedLimitsResponse) : SpeedLimitsResponse * option error :=
  match b with
  | Malformed e => (response, Some e)
  | Document v =>
      decode_struct "maps.SpeedLimitsResponse" decode_SpeedLimitsResponse_field
        v response
  end.

(** ** The client and its collaborators *)

(** The client as roads.go uses it: its [baseURL] field and its two
    methods [generateAuthQuery] and [httpDo], which are declared in a file
    that is not part of the sources at hand and are taken as parameters.
    Each is called at most once per request, so a function from its
    arguments to its outcome loses no behaviour. *)
Record Client : Type := mkClient {
  Client_baseURL : string;
  Client_generateAuthQuery : string -> Values -> bool -> error + string;
  Client_httpDo : Request -> error + Response
}.

(** What a call does to the world outside. *)
Inductive event : Type :=
| EvGo
| EvGenerateAuthQuery (path : string) (q : Values) (isPost : bool)
| EvHttpDo (req : Request)
| EvBodyClose.

Definition is_EvHttpDo (e : event) : bool :=
  match e with EvHttpDo _ => true | _ => false end.

Definition is_EvGenerateAuthQuery (e : event) : bool :=
  match e with EvGenerateAuthQuery _ _ _ => true | _ => false end.

Definition is_EvGo (e : event) : bool :=
  match e with EvGo => true | _ => false end.

(** A Go function body: the events so far, and either the value of a
    [return] already executed ([inl]) or the value the body goes on
    with ([inr]). *)
Definition Go (R A : Type) : Type := list event * (R + A).

#[global] Instance Go_ret {R : Type} : MRet (Go R) :=
  fun A a => ([], inr a).

#[global] Instance Go_bind {R : Type} : MBind (Go R) :=
  fun A B k m =>
    match m with
    | (t, inl r) => (t, inl r)
    | (t, inr a) => let '(t', x) := k a in ((t ++ t')%list, x)
    end.

Definition Return {R A : Type} (r : R) : Go R A := ([], inl r).

Definition emit {R : Type} (e : event) : Go R unit := ([e], inr tt).

Definition run {R : Type} (m : Go R R) : list event * R :=
  (fst m, match snd m with inl r => r | inr r => r end).

(** [if err != nil { return nil, err }] *)
Definition check {T A : Type} (x : error + A) : Go (option T * option error) A :=
  match x with
  | inl err => Return (None, Some err)
  | inr a => mret a
  end.

(** ** Request construction *)

(** The base URL both functions start from: the default, unless the
    client overrides it. *)
Definition baseURL_of (c : Client) : string :=
  if decide (Client_baseURL c = "") then "https://roads.googleapis.com/"
  else Client_baseURL c.

(** The query [q] of [doGetSnapToRoad] when it reaches
    [generateAuthQuery], from the query [q0] of the fresh request. *)
Definition snapToRoadQuery `{Runtime} (q0 : Values) (r : SnapToRoadRequest)
  : Values :=
  let q := q0 in
  let p := LatLng_String <$> SnapToRoadRequest_Path r in
  let q := Values_Set q "path" (Join p "|") in
  let q := if SnapToRoadRequest_Interpolate r
           then Values_Set q "interpolate" "true" else q in
  q.

(** The query [q] of [doGetSpeedLimits] when it reaches
    [generateAuthQuery]. *)
Definition speedLimitsQuery `{Runtime} (q0 : Values) (r : SpeedLimitsRequest)
  : Values :=
  let q := q0 in
  let p := LatLng_String <$> SpeedLimitsRequest_Path r in
  let q := if (0 <? Z.of_nat (List.length p))
           then Values_Set q "path" (Join p "|") else q in
  let q := foldl (fun q id => Values_Add q "placeId" id) q
             (SpeedLimitsRequest_PlaceID r) in
  let q := if decide (SpeedLimitsRequest_Units r = "")
           then q else Values_Set q "units" (SpeedLimitsRequest_Units r) in
  q.

(** ** [doGetSnapToRoad] *)

Definition doGetSnapToRoad `{Runtime} (c : Client) (r : SnapToRoadRequest)
  : list event * (option SnapToRoadResponse * option error) :=
  run (
    let baseURL := baseURL_of c in
    req ← check (NewRequest "GET" (baseURL +:+ "/v1/snapToRoads"));
    let q := snapToRoadQuery (URL_Query (Request_URL req)) r in
    emit (EvGenerateAuthQuery (URL_Path (Request_URL req)) q false);;
    query ← check (Client_generateAuthQuery c (URL_Path (Request_URL req)) q false);
    let req := mkRequest (Request_Method req)
                 (mkURL (URL_Path (Request_URL req)) query) in
    emit (EvHttpDo req);;
    resp ← check (Client_httpDo c req);
    let '(response, err) :=
      Decode_SnapToRoadResponse (Response_Body resp) SnapToRoadResponse_zero in
    emit EvBodyClose;;
    Return (Some response, err)).

(** ** [doGetSpeedLimits] *)

Definition doGetSpeedLimits `{Runtime} (c : Client) (r : SpeedLimitsRequest)
  : list event * (option SpeedLimitsResponse * option error) :=
  run (
    let baseURL := baseURL_of c in
    req ← check (NewRequest "GET" (baseURL +:+ "/v1/speedLimits"));
    let q := speedLimitsQuery (URL_Query (Request_URL req)) r in
    emit (EvGenerateAuthQuery (URL_Path (Request_URL req)) q false);;
    query ← check (Client_generateAuthQuery c (URL_Path (Request_URL req)) q false);
    let req := mkRequest (Request_Method req)
                 (mkURL (URL_Path (Request_URL req)) query) in
    emit (EvHttpDo req);;
    resp ← check (Client_httpDo c req);
    let '(response, err) :=
      Decode_SpeedLimitsResponse (Response_Body resp) SpeedLimitsResponse_zero in
    emit EvBodyClose;;
    Return (Some response, err)).

(** ** The cancellable call: goroutine, channel and [select]

    Both public operations have the same shape: validate, make an
    unbuffered channel, start a goroutine that runs the blocking call and
    then offers its result on the channel, and [select] between receiving
    that result and [ctx.Done()].

    A configuration holds where the calling goroutine and the worker are,
    whether [ctx.Done()] is closed, and the events so far.  [step] is the
    labelled transition function; a schedule is a list of labels, one per
    move of the caller, of the worker or of the context.

    [LRecv] and [LDone] are the two ways the [select] is resolved.  A
    case can be taken only if its communication can proceed at that
    moment: [LRecv] needs the worker blocked in its send, [LDone] needs
    [ctx.Done()] closed.  When both can proceed both labels are enabled,
    as a [select] statement picks one of its ready cases at random.  A
    caller that finds no case ready waits; it is resolved by the first
    of the two that becomes ready, which is the schedule where the
    resolving label follows that event at once. *)

(** [context.Context], as far as the operations use it: the error
    [ctx.Err()] reports once [ctx.Done()] is closed. *)
Record Context : Type := mkContext {
  Context_Err : error
}.

Inductive label : Type :=
| LEnter    (* the caller runs up to its [select], or returns early *)
| LWorker   (* the goroutine runs the blocking call up to its send *)
| LCancel   (* [ctx.Done()] is closed *)
| LRecv     (* [select] takes [case resp := <-chResult] *)
| LDone.    (* [select] takes [case <-ctx.Done()] *)

#[global] Instance label_eq_dec : EqDecision label.
Proof. solve_decision. Defined.

Section CancellableCall.
Context {T : Type}.

Definition result : Type := option T * option error.

Inductive main_state : Type :=
| MEntry
| MSelect
| MReturned (res : result).

Inductive worker_state : Type :=
| WNone
| WRunning
| WSending (v : result)
| WExited.

Record config : Type := mkConfig {
  cfg_main : main_state;
  cfg_worker : worker_state;
  cfg_done : bool;
  cfg_trace : list event
}.

(** What the operation does before its [select]: it returns at once
    ([inl]), or it starts a goroutine for the given blocking call
    ([inr]: the events of the call and its result). *)
Definition entry : Type := result + (list event * result).

Definition init (done : bool) : config := mkConfig MEntry WNone done [].

Definition step (ctx : Context) (en : entry) (l : label) (s : config)
  : option config :=
  match l, cfg_main s, cfg_worker s with
  | LEnter, MEntry, _ =>
      match en with
      | inl res =>
          Some (mkConfig (MReturned res) (cfg_worker s) (cfg_done s) (cfg_trace s))
      | inr _ =>
          Some (mkConfig MSelect WRunning (cfg_done s) (cfg_trace s ++ [EvGo]))
      end
  | LWorker, _, WRunning =>
      match en with
      | inl _ => None
      | inr (t, v) =>
          Some (mkConfig (cfg_main s) (WSending v) (cfg_done s) (cfg_trace s ++ t))
      end
  | LCancel, _, _ =>
      if cfg_done s then None
      else Some (mkConfig (cfg_main s) (cfg_worker s) true (cfg_trace s))
  | LRecv, MSelect, WSending v =>
      Some (mkConfig (MReturned v) WExited (cfg_done s) (cfg_trace s))
  | LDone, MSelect, _ =>
      if cfg_done s
      then Some (mkConfig (MReturned (None, Some (Context_Err ctx)))
                   (cfg_worker s) (cfg_done s) (cfg_trace s))
      else None
  | _, _, _ => None
  end.

Fixpoint exec (ctx : Context) (en : entry) (ls : list label) (s : config)
  : option config :=
  match ls with
  | [] => Some s
  | l :: rest =>
      match step ctx en l s with
      | Some s' => exec ctx en rest s'
      | None => None
      end
  end.

(** The result the caller has, once it has returned. *)
Definition returned (s : config) : option result :=
  match cfg_main s with
  | MReturned res => Some res
  | _ => None
  end.

End CancellableCall.

Arguments result : clear implicits.
Arguments config : clear implicits.
Arguments entry : clear implicits.
Arguments main_state : clear implicits.
Arguments worker_state : clear implicits.

(** ** [SnapToRoad] and [SpeedLimits] *)

Definition SnapToRoad_entry `{Runtime} (c : Client) (r : SnapToRoadRequest)
  : entry SnapToRoadResponse :=
  if decide (List.length (SnapToRoadRequest_Path r) = 0%nat)
  then inl (None, Some (errors_New "snapToRoad: You must specify a Path"))
  else inr (doGetSnapToRoad c r).

Definition SnapToRoad `{Runtime} (c : Client) (ctx : Context) (r : SnapToRoadRequest)
    (done : bool) (schedule : list label) : option (config SnapToRoadResponse) :=
  exec ctx (SnapToRoad_entry c r) schedule (init done).

Definition SpeedLimits_entry `{Runtime} (c : Client) (r : SpeedLimitsRequest)
  : entry SpeedLimitsResponse :=
  if decide (List.length (SpeedLimitsRequest_Path r) = 0%nat
             /\ List.length (SpeedLimitsRequest_PlaceID r) = 0%nat)
  then inl (None, Some (errors_New "speedLimits: You must specify a Path or PlaceID"))
  else inr (doGetSpeedLimits c r).

Definition SpeedLimits `{Runtime} (c : Client) (ctx : Context) (r : SpeedLimitsRequest)
    (done : bool) (schedule : list label) : option (config SpeedLimitsResponse) :=
  exec ctx (SpeedLimits_entry c r) schedule (init done).

(** ** A test double of the library and of the collaborators

    Used only to run the operations on closed inputs: a [float64] is
    represented by its decimal literal, keys are compared up to the case
    of ASCII letters, a URL is kept whole as its path and carries no
    query. *)

Definition ascii_lower (c : ascii) : ascii :=
  let n := N_of_ascii c in
  if ((65 <=? n) && (n <=? 90))%N then ascii_of_N (n + 32) else c.

Fixpoint stub_equalFold (s t : string) : bool :=
  match s, t with
  | EmptyString, EmptyString => true
  | String a s', String b t' =>
      if decide (ascii_lower a = ascii_lower b) then stub_equalFold s' t' else false
  | _, _ => false
  end.

Definition stub_Runtime : Runtime := {|
  float64 := string;
  float64_zero := "0";
  ParseFloat := fun lit => Some lit;
  FormatFloat := fun f => f;
  equalFold := stub_equalFold;
  NewRequest := fun method url => inr (mkRequest method (mkURL url ""));
  ParseQuery := fun _ => ∅
|}.

(** A client whose signing step succeeds and whose transport answers
    every request with the given body. *)
Definition stub_Client (b : body) : Client := {|
  Client_baseURL := "http://stub";
  Client_generateAuthQuery := fun _ _ _ => inr "signed";
  Client_httpDo := fun _ => inr (mkResponse b)
|}.

(** A client whose signing step fails. *)
Definition stub_Client_auth_fails (e : error) : Client := {|
  Client_baseURL := "";
  Client_generateAuthQuery := fun _ _ _ => inl e;
  Client_httpDo := fun _ => inr (mkResponse (Document JNull))
|}.

Definition stub_point (lat lng : string) : @LatLng stub_Runtime :=
  @mkLatLng stub_Runtime lat lng.

(** A client whose signing step succeeds and whose transport fails. *)
Definition stub_Client_transport_fails (e : error) : Client := {|
  Client_baseURL := "http://stub";
  Client_generateAuthQuery := fun _ _ _ => inr "signed";
  Client_httpDo := fun _ => inl e
|}.

(** A library whose [http.NewRequest] rejects every URL. *)
Definition stub_Runtime_bad_url (e : error) : Runtime := {|
  float64 := string;
  float64_zero := "0";
  ParseFloat := fun lit => Some lit;
  FormatFloat := fun f => f;
  equalFold := stub_equalFold;
  NewRequest := fun _ _ => inl e;
  ParseQuery := fun _ => ∅
|}.

(** ** Counting events *)

Definition count_events (p : event -> bool) (t : list event) : nat :=
  List.length (List.filter p t).

(** ** The shape of the trace of a blocking call

    Nothing; or the signing call alone, which failed; or the signing
    call, which gave [query], followed by the transport call on a request
    whose URL has the signed query, which failed; or those two followed
    by the closing of the body of the response the transport gave. *)
Definition blocking_call_trace (c : Client) (t : list event) : Prop :=
  t = [] \/
  exists path q,
    (t = [EvGenerateAuthQuery path q false] /\
     exists e, Client_generateAuthQuery c path q false = inl e) \/
    exists query req',
      Client_generateAuthQuery c path q false = inr query /\
      Request_URL req' = mkURL path query /\
      ((t = [EvGenerateAuthQuery path q false; EvHttpDo req'] /\
        exists e, Client_httpDo c req' = inl e) \/
       (t = [EvGenerateAuthQuery path q false; EvHttpDo req'; EvBodyClose] /\
        exists resp, Client_httpDo c req' = inr resp)).

(** ** Invariants of the cancellable call *)

Section Invariants.
Context {T : Type} (ctx : Context).

(** When validation fails nothing is started and nothing is recorded. *)
Definition inv_rejected (res : result T) (s : config T) : Prop :=
  cfg_worker s = WNone /\ cfg_trace s = [] /\
  (cfg_main s = MEntry \/ cfg_main s = MReturned res).

(** The worker has made no call yet ([WRunning]), or has made the call
    [(t, v)] and is blocked in its send ([WSending]). *)
Definition worker_pending (t : list event) (v : result T) (s : config T) : Prop :=
  (cfg_worker s = WRunning /\ cfg_trace s = [EvGo]) \/
  (cfg_worker s = WSending v /\ cfg_trace s = EvGo :: t).

(** The reachable configurations of a call that passed validation and
    whose blocking call has events [t] and result [v]. *)
Definition inv_started (t : list event) (v : result T) (s : config T) : Prop :=
  match cfg_main s with
  | MEntry => cfg_worker s = WNone /\ cfg_trace s = []
  | MSelect => worker_pending t v s
  | MReturned res =>
      (cfg_worker s = WExited /\ res = v /\ cfg_trace s = EvGo :: t) \/
      (res = (None, Some (Context_Err ctx)) /\ cfg_done s = true /\
       worker_pending t v s)
  end.

End Invariants.

(** ** Order of the cancellation and of the delivery in a schedule *)

(** [LCancel] comes in the schedule before any [LRecv]. *)
Fixpoint cancel_precedes_recv (schedule : list label) : bool :=
  match schedule with
  | [] => false
  | LCancel :: _ => true
  | LRecv :: _ => false
  | _ :: rest => cancel_precedes_recv rest
  end.

(** The cancellation signal fires before the result of the blocking call
    is delivered to the caller: [ctx.Done()] is closed when the operation
    is called, or it is closed in the schedule before the caller receives
    anything. *)
Definition fires_before_delivery (done : bool) (schedule : list label) : bool :=
  done || cancel_precedes_recv schedule.

(** ** What the [select] gives

    For an operation [op] (a function from schedules to configurations)
    whose blocking call has result [v], at a configuration [s] reached by
    [schedule]:
    - whatever the caller has returned is either [v], taken from the
      worker, or the reason of the cancellation, and never both;
    - if the caller is at its [select] with [ctx.Done()] closed and the
      worker still running, it cannot receive, it can take the
      cancellation, and once it has, every continuation of the schedule
      leaves it with the reason of the cancellation;
    - if the caller is at its [select] with [ctx.Done()] closed and the
      worker blocked in its send, both cases can be taken. *)
Definition select_outcome {T : Type} (ctx : Context) (v : result T)
    (op : list label -> option (config T)) (schedule : list label)
    (s : config T) : Prop :=
  (forall res, returned s = Some res ->
     (cfg_worker s = WExited /\ res = v) \/
     (cfg_worker s <> WExited /\ cfg_done s = true /\
      res = (None, Some (Context_Err ctx)))) /\
  (cfg_main s = MSelect -> cfg_done s = true -> cfg_worker s = WRunning ->
   op (schedule ++ [LRecv])%list = None /\
   (exists s', op (schedule ++ [LDone])%list = Some s') /\
   forall later s',
     op (schedule ++ LDone :: later)%list = Some s' ->
     returned s' = Some (None, Some (Context_Err ctx))) /\
  (cfg_main s = MSelect -> cfg_done s = true -> cfg_worker s = WSending v ->
   (exists s', op (schedule ++ [LRecv])%list = Some s' /\ returned s' = Some v) /\
   (exists s', op (schedule ++ [LDone])%list = Some s' /\
               returned s' = Some (None, Some (Context_Err ctx)))).

(** * Facts *)

(** ** Queries *)

Lemma Values_Set_lookup (q : Values) (k v : string) :
  Values_Set q k v !! k = Some [v].
Proof. unfold Values_Set. apply lookup_insert_eq. Qed.

Lemma Values_Set_lookup_ne (q : Values) (k k' v : string) :
  k <> k' -> Values_Set q k v !! k' = q !! k'.
Proof. intros Hne. unfold Values_Set. by apply lookup_insert_ne. Qed.

Lemma Values_Add_lookup (q : Values) (k v : string) :
  Values_Add q k v !! k = Some (default [] (q !! k) ++ [v])%list.
Proof. unfold Values_Add. apply lookup_insert_eq. Qed.

Lemma Values_Add_lookup_ne (q : Values) (k k' v : string) :
  k <> k' -> Values_Add q k v !! k' = q !! k'.
Proof. intros Hne. unfold Values_Add. by apply lookup_insert_ne. Qed.

(** Adding the identifiers one by one appends them, in order, to the
    values the key already has. *)
Lemma foldl_Values_Add_values (ids : list string) (q : Values) (k : string) :
  default [] (foldl (fun q id => Values_Add q k id) q ids !! k)
  = (default [] (q !! k) ++ ids)%list.
Proof.
  revert q. induction ids as [|id ids IH]; intros q; simpl.
  - by rewrite app_nil_r.
  - rewrite IH, Values_Add_lookup. simpl. by rewrite <- app_assoc.
Qed.

Lemma foldl_Values_Add_bound (ids : list string) (q : Values) (k : string) :
  ids <> [] -> is_Some (foldl (fun q id => Values_Add q k id) q ids !! k).
Proof.
  revert q. induction ids as [|id ids IH]; intros q Hne; [done|]. simpl.
  destruct ids as [|id' ids'].
  - simpl. rewrite Values_Add_lookup. eauto.
  - apply IH. discriminate.
Qed.

Lemma foldl_Values_Add_lookup_ne (ids : list string) (q : Values) (k k' : string) :
  k <> k' -> foldl (fun q id => Values_Add q k id) q ids !! k' = q !! k'.
Proof.
  intros Hne. revert q. induction ids as [|id ids IH]; intros q; simpl; [done|].
  rewrite IH. by apply Values_Add_lookup_ne.
Qed.

(** ** The two blocking calls, branch by branch *)

Lemma doGetSnapToRoad_eq `{Runtime} (c : Client) (r : SnapToRoadRequest) :
  doGetSnapToRoad c r =
  match NewRequest "GET" (baseURL_of c +:+ "/v1/snapToRoads") with
  | inl err => ([], (None, Some err))
  | inr req =>
      let path := URL_Path (Request_URL req) in
      let q := snapToRoadQuery (URL_Query (Request_URL req)) r in
      match Client_generateAuthQuery c path q false with
      | inl err => ([EvGenerateAuthQuery path q false], (None, Some err))
      | inr query =>
          let req' := mkRequest (Request_Method req) (mkURL path query) in
          match Client_httpDo c req' with
          | inl err =>
              ([EvGenerateAuthQuery path q false; EvHttpDo req'], (None, Some err))
          | inr resp =>
              let d := Decode_SnapToRoadResponse (Response_Body resp)
                         SnapToRoadResponse_zero in
              ([EvGenerateAuthQuery path q false; EvHttpDo req'; EvBodyClose],
               (Some (fst d), snd d))
          end
      end
  end.
Proof.
  unfold doGetSnapToRoad.
  destruct (NewRequest "GET" (baseURL_of c +:+ "/v1/snapToRoads")) as [e|req];
    [reflexivity|]. cbn.
  destruct (Client_generateAuthQuery c _ _ false) as [e|query]; [reflexivity|]. cbn.
  destruct (Client_httpDo c _) as [e|resp]; [reflexivity|]. cbn.
  destruct (Decode_SnapToRoadResponse _ _) as [response err]. reflexivity.
Qed.

Lemma doGetSpeedLimits_eq `{Runtime} (c : Client) (r : SpeedLimitsRequest) :
  doGetSpeedLimits c r =
  match NewRequest "GET" (baseURL_of c +:+ "/v1/speedLimits") with
  | inl err => ([], (None, Some err))
  | inr req =>
      let path := URL_Path (Request_URL req) in
      let q := speedLimitsQuery (URL_Query (Request_URL req)) r in
      match Client_generateAuthQuery c path q false with
      | inl err => ([EvGenerateAuthQuery path q false], (None, Some err))
      | inr query =>
          let req' := mkRequest (Request_Method req) (mkURL path query) in
          match Client_httpDo c req' with
          | inl err =>
              ([EvGenerateAuthQuery path q false; EvHttpDo req'], (None, Some err))
          | inr resp =>
              let d := Decode_SpeedLimitsResponse (Response_Body resp)
                         SpeedLimitsResponse_zero in
              ([EvGenerateAuthQuery path q false; EvHttpDo req'; EvBodyClose],
               (Some (fst d), snd d))
          end
      end
  end.
Proof.
  unfold doGetSpeedLimits.
  destruct (NewRequest "GET" (baseURL_of c +:+ "/v1/speedLimits")) as [e|req];
    [reflexivity|]. cbn.
  destruct (Client_generateAuthQuery c _ _ false) as [e|query]; [reflexivity|]. cbn.
  destruct (Client_httpDo c _) as [e|resp]; [reflexivity|]. cbn.
  destruct (Decode_SpeedLimitsResponse _ _) as [response err]. reflexivity.
Qed.

(** ** The cancellable call *)

Section CancellableCallFacts.
Context {T : Type} (ctx : Context).

Local Ltac step_cases s l :=
  destruct s as [m w d tr]; unfold step; cbn;
  destruct l, m, w, d; cbn; intros; simplify_eq; cbn in *.

Lemma step_rejected (res : result T) (l : label) (s s' : config T) :
  inv_rejected res s ->
  step ctx (inl res) l s = Some s' ->
  inv_rejected res s'.
Proof.
  unfold inv_rejected. revert s'. step_cases s l; naive_solver.
Qed.

Lemma exec_rejected (res : result T) (ls : list label) (s s' : config T) :
  inv_rejected res s ->
  exec ctx (inl res) ls s = Some s' ->
  inv_rejected res s'.
Proof.
  revert s. induction ls as [|l ls IH]; intros s Hinv Hex; cbn in Hex.
  - by simplify_eq.
  - destruct (step ctx (inl res) l s) as [s1|] eqn:Hstep; [|done].
    eapply IH; [|exact Hex]. by eapply step_rejected.
Qed.

Lemma step_started (t : list event) (v : result T) (l : label) (s s' : config T) :
  inv_started ctx t v s ->
  step ctx (inr (t, v)) l s = Some s' ->
  inv_started ctx t v s'.
Proof.
  unfold inv_started, worker_pending. revert s'. step_cases s l; naive_solver.
Qed.

Lemma exec_started (t : list event) (v : result T) (ls : list label)
    (s s' : config T) :
  inv_started ctx t v s ->
  exec ctx (inr (t, v)) ls s = Some s' ->
  inv_started ctx t v s'.
Proof.
  revert s. induction ls as [|l ls IH]; intros s Hinv Hex; cbn in Hex.
  - by simplify_eq.
  - destruct (step ctx (inr (t, v)) l s) as [s1|] eqn:Hstep; [|done].
    eapply IH; [|exact Hex]. by eapply step_started.
Qed.

Lemma inv_started_init (t : list event) (v : result T) (done : bool) :
  inv_started ctx t v (init done).
Proof. by cbn. Qed.

Lemma inv_rejected_init (res : result T) (done : bool) :
  inv_rejected res (init done).
Proof. unfold inv_rejected. cbn. auto. Qed.

(** Once the caller has returned, nothing changes what it returned. *)
Lemma step_returned_stable (en : entry T) (l : label) (s s' : config T)
    (res : result T) :
  cfg_main s = MReturned res ->
  step ctx en l s = Some s' ->
  cfg_main s' = MReturned res.
Proof.
  revert s'. destruct s as [m w d tr]; unfold step; cbn.
  intros s' ->. destruct l, w, d, en as [?|[? ?]]; cbn; intros; by simplify_eq.
Qed.

Lemma exec_returned_stable (en : entry T) (ls : list label) (s s' : config T)
    (res : result T) :
  cfg_main s = MReturned res ->
  exec ctx en ls s = Some s' ->
  cfg_main s' = MReturned res.
Proof.
  revert s. induction ls as [|l ls IH]; intros s Hm Hex; cbn in Hex.
  - by simplify_eq.
  - destruct (step ctx en l s) as [s1|] eqn:Hstep; [|done].
    eapply IH; [|exact Hex]. by eapply step_returned_stable.
Qed.

(** The [select] with only [ctx.Done()] ready: receiving is not enabled
    and the other case returns the reason of the cancellation. *)
Lemma select_only_done (en : entry T) (s : config T) :
  cfg_main s = MSelect ->
  cfg_done s = true ->
  (forall v, cfg_worker s <> WSending v) ->
  step ctx en LRecv s = None /\
  exists s', step ctx en LDone s = Some s' /\
             cfg_main s' = MReturned (None, Some (Context_Err ctx)).
Proof.
  destruct s as [m w d tr]; cbn. intros -> -> Hw. unfold step; cbn. split.
  - destruct w; try done. by destruct (Hw v).
  - destruct w; eauto.
Qed.

(** The [select] with only the worker ready. *)
Lemma select_only_recv (en : entry T) (s : config T) (v : result T) :
  cfg_main s = MSelect ->
  cfg_done s = false ->
  cfg_worker s = WSending v ->
  step ctx en LDone s = None /\
  exists s', step ctx en LRecv s = Some s' /\ cfg_main s' = MReturned v.
Proof.
  destruct s as [m w d tr]; cbn. intros -> -> ->. unfold step; cbn. eauto.
Qed.

(** The [select] with both cases ready: either may be taken. *)
Lemma select_both_ready (en : entry T) (s : config T) (v : result T) :
  cfg_main s = MSelect ->
  cfg_done s = true ->
  cfg_worker s = WSending v ->
  (exists s', step ctx en LRecv s = Some s' /\ cfg_main s' = MReturned v) /\
  (exists s', step ctx en LDone s = Some s' /\
              cfg_main s' = MReturned (None, Some (Context_Err ctx))).
Proof.
  destruct s as [m w d tr]; cbn. intros -> -> ->. unfold step; cbn.
  split; eexists; split; reflexivity.
Qed.

Lemma exec_app (en : entry T) (l1 l2 : list label) (s : config T) :
  exec ctx en (l1 ++ l2) s =
  match exec ctx en l1 s with
  | Some s1 => exec ctx en l2 s1
  | None => None
  end.
Proof.
  revert s. induction l1 as [|l l1 IH]; intros s; cbn; [done|].
  destruct (step ctx en l s); [apply IH|done].
Qed.

End CancellableCallFacts.

(** * Validation *)

(** C2. For every request whose [Path] is empty, [SnapToRoad] returns
    the validation error as soon as the caller moves, and in every
    schedule nothing is recorded in the trace (no HTTP call, no
    auth-query generation, no goroutine) and no worker exists. *)
Theorem SnapToRoad_empty_path `{Runtime} (c : Client) (ctx : Context)
    (r : SnapToRoadRequest) (done : bool) :
  SnapToRoadRequest_Path r = [] ->
  (exists s, SnapToRoad c ctx r done [LEnter] = Some s /\
     returned s = Some (None, Some (errors_New "snapToRoad: You must specify a Path"))) /\
  (forall schedule s,
     SnapToRoad c ctx r done schedule = Some s ->
     cfg_trace s = [] /\ cfg_worker s = WNone /\
     forall res, returned s = Some res ->
       res = (None, Some (errors_New "snapToRoad: You must specify a Path"))).
Proof.
  intros Hpath. unfold SnapToRoad, SnapToRoad_entry. rewrite Hpath. cbn [List.length].
  destruct (decide (0%nat = 0%nat)) as [_|Hne]; [|done]. split.
  - eexists. split; reflexivity.
  - intros schedule s Hex.
    apply exec_rejected in Hex; [|apply inv_rejected_init].
    destruct Hex as (Hw & Ht & Hm). repeat split; [done..|].
    intros res. unfold returned. destruct Hm as [-> | ->]; [done|].
    by intros [= <-].
Qed.

Lemma SnapToRoad_empty_path_witness :
  (exists s, @SnapToRoad stub_Runtime (stub_Client (Document JNull))
               (mkContext Canceled) (@mkSnapToRoadRequest stub_Runtime [] true)
               false [LEnter] = Some s /\
     returned s = Some (None, Some (errors_New "snapToRoad: You must specify a Path"))) /\
  (forall schedule s,
     @SnapToRoad stub_Runtime (stub_Client (Document JNull))
       (mkContext Canceled) (@mkSnapToRoadRequest stub_Runtime [] true)
       false schedule = Some s ->
     cfg_trace s = [] /\ cfg_worker s = WNone /\
     forall res, returned s = Some res ->
       res = (None, Some (errors_New "snapToRoad: You must specify a Path"))).
Proof.
  apply (@SnapToRoad_empty_path stub_Runtime). reflexivity.
Defined.

(** C3. For every request whose [Path] and [PlaceID] are both empty,
    [SpeedLimits] returns the validation error and nothing is recorded
    in the trace; when one of them is not empty the caller starts the
    worker and reaches its [select]. *)
Theorem SpeedLimits_validation `{Runtime} (c : Client) (ctx : Context)
    (r : SpeedLimitsRequest) (done : bool) :
  (SpeedLimitsRequest_Path r = [] -> SpeedLimitsRequest_PlaceID r = [] ->
   (exists s, SpeedLimits c ctx r done [LEnter] = Some s /\
      returned s =
        Some (None, Some (errors_New "speedLimits: You must specify a Path or PlaceID"))) /\
   (forall schedule s,
      SpeedLimits c ctx r done schedule = Some s ->
      cfg_trace s = [] /\ cfg_worker s = WNone /\
      forall res, returned s = Some res ->
        res = (None, Some (errors_New "speedLimits: You must specify a Path or PlaceID")))) /\
  (SpeedLimitsRequest_Path r <> [] \/ SpeedLimitsRequest_PlaceID r <> [] ->
   SpeedLimits_entry c r = inr (doGetSpeedLimits c r) /\
   SpeedLimits c ctx r done [LEnter] = Some (mkConfig MSelect WRunning done [EvGo])).
Proof.
  split.
  - intros Hpath Hids. unfold SpeedLimits, SpeedLimits_entry.
    rewrite Hpath, Hids. cbn [List.length].
    destruct (decide (0%nat = 0%nat /\ 0%nat = 0%nat)) as [_|Hne]; [|by destruct Hne].
    split.
    + eexists. split; reflexivity.
    + intros schedule s Hex.
      apply exec_rejected in Hex; [|apply inv_rejected_init].
      destruct Hex as (Hw & Ht & Hm). repeat split; [done..|].
      intros res. unfold returned. destruct Hm as [-> | ->]; [done|].
      by intros [= <-].
  - intros Hne. unfold SpeedLimits, SpeedLimits_entry.
    destruct (decide _) as [[Hp Hi]|_].
    + apply length_zero_iff_nil in Hp, Hi. by destruct Hne.
    + split; reflexivity.
Qed.

Lemma SpeedLimits_validation_witness :
  (exists s, @SpeedLimits stub_Runtime (stub_Client (Document JNull))
               (mkContext Canceled) (@mkSpeedLimitsRequest stub_Runtime [] [] "MPH")
               false [LEnter] = Some s /\
      returned s =
        Some (None, Some (errors_New "speedLimits: You must specify a Path or PlaceID"))) /\
  @SpeedLimits stub_Runtime (stub_Client (Document JNull)) (mkContext Canceled)
    (@mkSpeedLimitsRequest stub_Runtime [] ["a"] "") false [LEnter]
  = Some (mkConfig MSelect WRunning false [EvGo]).
Proof.
  split.
  - apply (@SpeedLimits_validation stub_Runtime (stub_Client (Document JNull))
             (mkContext Canceled) (@mkSpeedLimitsRequest stub_Runtime [] [] "MPH") false);
      reflexivity.
  - apply (@SpeedLimits_validation stub_Runtime (stub_Client (Document JNull))
             (mkContext Canceled) (@mkSpeedLimitsRequest stub_Runtime [] ["a"] "") false).
    right. discriminate.
Defined.

(** * Request construction *)

Lemma snapToRoadQuery_path `{Runtime} (q0 : Values) (r : SnapToRoadRequest) :
  snapToRoadQuery q0 r !! "path"
  = Some [Join (LatLng_String <$> SnapToRoadRequest_Path r) "|"].
Proof.
  unfold snapToRoadQuery. destruct (SnapToRoadRequest_Interpolate r).
  - rewrite Values_Set_lookup_ne by done. apply Values_Set_lookup.
  - apply Values_Set_lookup.
Qed.

Lemma speedLimitsQuery_path `{Runtime} (q0 : Values) (r : SpeedLimitsRequest) :
  speedLimitsQuery q0 r !! "path"
  = match SpeedLimitsRequest_Path r with
    | [] => q0 !! "path"
    | _ :: _ => Some [Join (LatLng_String <$> SpeedLimitsRequest_Path r) "|"]
    end.
Proof.
  unfold speedLimitsQuery.
  assert (Hu : forall q : Values,
    (if decide (SpeedLimitsRequest_Units r = "") then q
     else Values_Set q "units" (SpeedLimitsRequest_Units r)) !! "path" = q !! "path").
  { intros q. destruct (decide _); [done|]. by apply Values_Set_lookup_ne. }
  rewrite Hu, foldl_Values_Add_lookup_ne by done.
  destruct (SpeedLimitsRequest_Path r) as [|x l]; cbn [fmap list_fmap List.length].
  - reflexivity.
  - replace (0 <? Z.of_nat (S (List.length (list_fmap _ _ LatLng_String l))))
      with true by (symmetry; apply Z.ltb_lt; lia).
    apply Values_Set_lookup.
Qed.

Lemma speedLimitsQuery_placeId `{Runtime} (q0 : Values) (r : SpeedLimitsRequest) :
  default [] (speedLimitsQuery q0 r !! "placeId")
  = (default [] (q0 !! "placeId") ++ SpeedLimitsRequest_PlaceID r)%list.
Proof.
  unfold speedLimitsQuery.
  assert (Hu : forall q : Values,
    (if decide (SpeedLimitsRequest_Units r = "") then q
     else Values_Set q "units" (SpeedLimitsRequest_Units r)) !! "placeId"
    = q !! "placeId").
  { intros q. destruct (decide _); [done|]. by apply Values_Set_lookup_ne. }
  rewrite Hu, foldl_Values_Add_values. f_equal. f_equal.
  destruct (0 <? _); [|done]. by apply Values_Set_lookup_ne.
Qed.

Lemma speedLimitsQuery_placeId_bound `{Runtime} (q0 : Values) (r : SpeedLimitsRequest) :
  SpeedLimitsRequest_PlaceID r <> [] ->
  is_Some (speedLimitsQuery q0 r !! "placeId").
Proof.
  intros Hne. unfold speedLimitsQuery.
  destruct (decide (SpeedLimitsRequest_Units r = "")).
  - by apply foldl_Values_Add_bound.
  - rewrite Values_Set_lookup_ne by done. by apply foldl_Values_Add_bound.
Qed.

Lemma speedLimitsQuery_units `{Runtime} (q0 : Values) (r : SpeedLimitsRequest) :
  speedLimitsQuery q0 r !! "units"
  = if decide (SpeedLimitsRequest_Units r = "") then q0 !! "units"
    else Some [SpeedLimitsRequest_Units r].
Proof.
  unfold speedLimitsQuery. destruct (decide (SpeedLimitsRequest_Units r = "")).
  - rewrite foldl_Values_Add_lookup_ne by done.
    destruct (0 <? _); [|done]. by apply Values_Set_lookup_ne.
  - apply Values_Set_lookup.
Qed.

(** The first thing either blocking call does, once the request is built,
    is to hand its query to [generateAuthQuery]. *)
Lemma doGetSnapToRoad_auth_event `{Runtime} (c : Client) (r : SnapToRoadRequest)
    (req : Request) :
  NewRequest "GET" (baseURL_of c +:+ "/v1/snapToRoads") = inr req ->
  exists tl,
    fst (doGetSnapToRoad c r)
    = EvGenerateAuthQuery (URL_Path (Request_URL req))
        (snapToRoadQuery (URL_Query (Request_URL req)) r) false :: tl.
Proof.
  intros Hreq. rewrite doGetSnapToRoad_eq, Hreq. cbn zeta.
  destruct (Client_generateAuthQuery c _ _ false); [by eexists|].
  destruct (Client_httpDo c _); by eexists.
Qed.

Lemma doGetSpeedLimits_auth_event `{Runtime} (c : Client) (r : SpeedLimitsRequest)
    (req : Request) :
  NewRequest "GET" (baseURL_of c +:+ "/v1/speedLimits") = inr req ->
  exists tl,
    fst (doGetSpeedLimits c r)
    = EvGenerateAuthQuery (URL_Path (Request_URL req))
        (speedLimitsQuery (URL_Query (Request_URL req)) r) false :: tl.
Proof.
  intros Hreq. rewrite doGetSpeedLimits_eq, Hreq. cbn zeta.
  destruct (Client_generateAuthQuery c _ _ false); [by eexists|].
  destruct (Client_httpDo c _); by eexists.
Qed.

(** C4. Once the request is built, the query handed to
    [generateAuthQuery] binds [path] to the single value made of the
    coordinates' string forms joined by "|", in the order of [Path]: in
    [doGetSnapToRoad] always, in [doGetSpeedLimits] when [Path] is not
    empty.  When [Path] is empty [doGetSpeedLimits] sets no [path]
    parameter: the query has the one of the fresh request, that is
    none when that request carries none. *)
Theorem path_parameter `{Runtime} (c : Client) :
  (forall (r : SnapToRoadRequest) (req : Request),
     NewRequest "GET" (baseURL_of c +:+ "/v1/snapToRoads") = inr req ->
     SnapToRoadRequest_Path r <> [] ->
     exists q tl,
       fst (doGetSnapToRoad c r)
       = EvGenerateAuthQuery (URL_Path (Request_URL req)) q false :: tl /\
       q !! "path" = Some [Join (LatLng_String <$> SnapToRoadRequest_Path r) "|"]) /\
  (forall (r : SpeedLimitsRequest) (req : Request),
     NewRequest "GET" (baseURL_of c +:+ "/v1/speedLimits") = inr req ->
     exists q tl,
       fst (doGetSpeedLimits c r)
       = EvGenerateAuthQuery (URL_Path (Request_URL req)) q false :: tl /\
       (SpeedLimitsRequest_Path r <> [] ->
        q !! "path" = Some [Join (LatLng_String <$> SpeedLimitsRequest_Path r) "|"]) /\
       (SpeedLimitsRequest_Path r = [] ->
        q !! "path" = URL_Query (Request_URL req) !! "path" /\
        (URL_Query (Request_URL req) !! "path" = None -> ~ has_param q "path"))).
Proof.
  split.
  - intros r req Hreq _.
    destruct (doGetSnapToRoad_auth_event c r req Hreq) as [tl Htl].
    eexists _, tl. split; [exact Htl|]. apply snapToRoadQuery_path.
  - intros r req Hreq.
    destruct (doGetSpeedLimits_auth_event c r req Hreq) as [tl Htl].
    eexists _, tl. split; [exact Htl|].
    rewrite speedLimitsQuery_path. split.
    + by destruct (SpeedLimitsRequest_Path r).
    + intros Hp. rewrite Hp. split; [done|]. intros Hnone [x Hx].
      rewrite speedLimitsQuery_path, Hp, Hnone in Hx. discriminate.
Qed.

Lemma path_parameter_witness :
  (exists q tl,
     fst (@doGetSnapToRoad stub_Runtime (stub_Client (Document JNull))
            (@mkSnapToRoadRequest stub_Runtime
               [stub_point "1" "2"; stub_point "3" "4"] false))
     = EvGenerateAuthQuery "http://stub/v1/snapToRoads" q false :: tl /\
     q !! "path" = Some ["1,2|3,4"]) /\
  (exists q tl,
     fst (@doGetSpeedLimits stub_Runtime (stub_Client (Document JNull))
            (@mkSpeedLimitsRequest stub_Runtime [] ["a"] ""))
     = EvGenerateAuthQuery "http://stub/v1/speedLimits" q false :: tl /\
     ~ has_param q "path").
Proof.
  split.
  - apply (proj1 (@path_parameter stub_Runtime (stub_Client (Document JNull)))
             (@mkSnapToRoadRequest stub_Runtime
                [stub_point "1" "2"; stub_point "3" "4"] false)
             (mkRequest "GET" (mkURL "http://stub/v1/snapToRoads" ""))).
    + reflexivity.
    + discriminate.
  - destruct (proj2 (@path_parameter stub_Runtime (stub_Client (Document JNull)))
                (@mkSpeedLimitsRequest stub_Runtime [] ["a"] "")
                (mkRequest "GET" (mkURL "http://stub/v1/speedLimits" ""))
                eq_refl) as (q & tl & Hev & _ & Hempty).
    exists q, tl. split; [exact Hev|].
    apply (Hempty eq_refl). reflexivity.
Defined.

(** C5. Every entry of [PlaceID] is added as one more value of the
    [placeId] parameter: the values of [placeId] in the query handed to
    [generateAuthQuery] are those of the fresh request followed by the
    entries of [PlaceID], in their order and with their repetitions; when
    the fresh request has none they are exactly the entries of
    [PlaceID]. *)
Theorem placeId_parameters `{Runtime} (c : Client) (r : SpeedLimitsRequest)
    (req : Request) :
  NewRequest "GET" (baseURL_of c +:+ "/v1/speedLimits") = inr req ->
  exists q tl,
    fst (doGetSpeedLimits c r)
    = EvGenerateAuthQuery (URL_Path (Request_URL req)) q false :: tl /\
    default [] (q !! "placeId")
    = (default [] (URL_Query (Request_URL req) !! "placeId")
       ++ SpeedLimitsRequest_PlaceID r)%list /\
    (URL_Query (Request_URL req) !! "placeId" = None ->
     SpeedLimitsRequest_PlaceID r <> [] ->
     q !! "placeId" = Some (SpeedLimitsRequest_PlaceID r)).
Proof.
  intros Hreq.
  destruct (doGetSpeedLimits_auth_event c r req Hreq) as [tl Htl].
  eexists _, tl. split; [exact Htl|]. split.
  - apply speedLimitsQuery_placeId.
  - intros Hnone Hne.
    pose proof (speedLimitsQuery_placeId (URL_Query (Request_URL req)) r) as Hv.
    destruct (speedLimitsQuery_placeId_bound (URL_Query (Request_URL req)) r Hne)
      as [vs Hvs].
    rewrite Hvs in Hv |- *. rewrite Hnone in Hv. cbn in Hv. by rewrite Hv.
Qed.

Lemma placeId_parameters_witness :
  exists q tl,
    fst (@doGetSpeedLimits stub_Runtime (stub_Client (Document JNull))
           (@mkSpeedLimitsRequest stub_Runtime [] ["a"; "b"; "a"] ""))
    = EvGenerateAuthQuery "http://stub/v1/speedLimits" q false :: tl /\
    q !! "placeId" = Some ["a"; "b"; "a"].
Proof.
  destruct (@placeId_parameters stub_Runtime (stub_Client (Document JNull))
              (@mkSpeedLimitsRequest stub_Runtime [] ["a"; "b"; "a"] "")
              (mkRequest "GET" (mkURL "http://stub/v1/speedLimits" ""))
              eq_refl) as (q & tl & Hev & _ & Hids).
  exists q, tl. split; [exact Hev|]. apply Hids; [reflexivity|discriminate].
Defined.

(** C6. When the fresh request carries no [units] parameter, the query
    handed to [generateAuthQuery] has a [units] parameter exactly when
    [Units] is not the empty string, and its only value is then
    [Units]. *)
Theorem units_parameter `{Runtime} (c : Client) (r : SpeedLimitsRequest)
    (req : Request) :
  NewRequest "GET" (baseURL_of c +:+ "/v1/speedLimits") = inr req ->
  URL_Query (Request_URL req) !! "units" = None ->
  exists q tl,
    fst (doGetSpeedLimits c r)
    = EvGenerateAuthQuery (URL_Path (Request_URL req)) q false :: tl /\
    (has_param q "units" <-> SpeedLimitsRequest_Units r <> "") /\
    (SpeedLimitsRequest_Units r <> "" ->
     q !! "units" = Some [SpeedLimitsRequest_Units r]) /\
    (SpeedLimitsRequest_Units r = "" -> q !! "units" = None).
Proof.
  intros Hreq Hnone.
  destruct (doGetSpeedLimits_auth_event c r req Hreq) as [tl Htl].
  eexists _, tl. split; [exact Htl|].
  unfold has_param. rewrite speedLimitsQuery_units, Hnone.
  destruct (decide (SpeedLimitsRequest_Units r = "")) as [He|Hne].
  - repeat split; try done; by intros [x Hx].
  - repeat split; try done; eauto.
Qed.

Lemma units_parameter_witness :
  (exists q tl,
     fst (@doGetSpeedLimits stub_Runtime (stub_Client (Document JNull))
            (@mkSpeedLimitsRequest stub_Runtime [] ["a"] SpeedLimitMPH))
     = EvGenerateAuthQuery "http://stub/v1/speedLimits" q false :: tl /\
     q !! "units" = Some ["MPH"]) /\
  (exists q tl,
     fst (@doGetSpeedLimits stub_Runtime (stub_Client (Document JNull))
            (@mkSpeedLimitsRequest stub_Runtime [] ["a"] ""))
     = EvGenerateAuthQuery "http://stub/v1/speedLimits" q false :: tl /\
     q !! "units" = None).
Proof.
  split.
  - destruct (@units_parameter stub_Runtime (stub_Client (Document JNull))
                (@mkSpeedLimitsRequest stub_Runtime [] ["a"] SpeedLimitMPH)
                (mkRequest "GET" (mkURL "http://stub/v1/speedLimits" ""))
                eq_refl eq_refl) as (q & tl & Hev & _ & Hset & _).
    exists q, tl. split; [exact Hev|]. apply Hset. discriminate.
  - destruct (@units_parameter stub_Runtime (stub_Client (Document JNull))
                (@mkSpeedLimitsRequest stub_Runtime [] ["a"] "")
                (mkRequest "GET" (mkURL "http://stub/v1/speedLimits" ""))
                eq_refl eq_refl) as (q & tl & Hev & _ & _ & Hunset).
    exists q, tl. split; [exact Hev|]. apply Hunset. reflexivity.
Defined.

(** C10. [Units] is never checked against the two constants: whatever
    non-empty string it is, a request with a [Path] or a [PlaceID] passes
    validation, and the query handed to [generateAuthQuery] binds [units]
    to that very string. *)
Theorem units_not_validated `{Runtime} (c : Client) (ctx : Context)
    (r : SpeedLimitsRequest) (done : bool) :
  SpeedLimitsRequest_Units r <> "" ->
  SpeedLimitsRequest_Path r <> [] \/ SpeedLimitsRequest_PlaceID r <> [] ->
  SpeedLimits c ctx r done [LEnter] = Some (mkConfig MSelect WRunning done [EvGo]) /\
  SpeedLimits c ctx r done [LEnter; LWorker]
  = Some (mkConfig MSelect (WSending (snd (doGetSpeedLimits c r))) done
            (EvGo :: fst (doGetSpeedLimits c r))) /\
  forall req,
    NewRequest "GET" (baseURL_of c +:+ "/v1/speedLimits") = inr req ->
    exists q tl,
      fst (doGetSpeedLimits c r)
      = EvGenerateAuthQuery (URL_Path (Request_URL req)) q false :: tl /\
      q !! "units" = Some [SpeedLimitsRequest_Units r].
Proof.
  intros Hunits Hne. unfold SpeedLimits, SpeedLimits_entry.
  destruct (decide _) as [[Hp Hi]|_].
  { apply length_zero_iff_nil in Hp, Hi. by destruct Hne. }
  split; [reflexivity|]. split.
  { cbn. by destruct (doGetSpeedLimits c r). }
  intros req Hreq.
  destruct (doGetSpeedLimits_auth_event c r req Hreq) as [tl Htl].
  eexists _, tl. split; [exact Htl|].
  rewrite speedLimitsQuery_units. by destruct (decide _).
Qed.

Lemma units_not_validated_witness :
  @SpeedLimits stub_Runtime (stub_Client (Document JNull)) (mkContext Canceled)
    (@mkSpeedLimitsRequest stub_Runtime [] ["a"] "furlongs") false [LEnter]
  = Some (mkConfig MSelect WRunning false [EvGo]) /\
  exists q tl,
    fst (@doGetSpeedLimits stub_Runtime (stub_Client (Document JNull))
           (@mkSpeedLimitsRequest stub_Runtime [] ["a"] "furlongs"))
    = EvGenerateAuthQuery "http://stub/v1/speedLimits" q false :: tl /\
    q !! "units" = Some ["furlongs"].
Proof.
  destruct (@units_not_validated stub_Runtime (stub_Client (Document JNull))
              (mkContext Canceled)
              (@mkSpeedLimitsRequest stub_Runtime [] ["a"] "furlongs") false)
    as (Hstart & _ & Hq).
  - discriminate.
  - right. discriminate.
  - split; [exact Hstart|].
    apply (Hq (mkRequest "GET" (mkURL "http://stub/v1/speedLimits" ""))).
    reflexivity.
Defined.

(** * What the caller can observe *)

Section Observations.
Context {T : Type} (ctx : Context) (t : list event) (v : result T).

Lemma started_returned (s : config T) (res : result T) :
  inv_started ctx t v s ->
  returned s = Some res ->
  (cfg_worker s = WExited /\ res = v) \/
  (cfg_worker s <> WExited /\ cfg_done s = true /\
   res = (None, Some (Context_Err ctx))).
Proof.
  unfold inv_started, returned, worker_pending.
  destruct (cfg_main s) as [| |res']; [done..|].
  intros Hinv [= ->]. destruct Hinv as [(Hw & -> & _)|(-> & Hd & Hp)].
  - by left.
  - right. repeat split; [|done]. destruct Hp as [[-> _]|[-> _]]; done.
Qed.

Lemma started_exited (s : config T) :
  inv_started ctx t v s ->
  cfg_worker s = WExited ->
  returned s = Some v.
Proof.
  unfold inv_started, returned, worker_pending.
  destruct (cfg_main s) as [| |res']; intros Hinv Hw; rewrite Hw in Hinv.
  - by destruct Hinv.
  - by destruct Hinv as [[? _]|[? _]].
  - destruct Hinv as [(_ & -> & _)|(_ & _ & [[? _]|[? _]])]; done.
Qed.

Lemma started_trace (s : config T) :
  inv_started ctx t v s ->
  cfg_trace s = [] \/ cfg_trace s = [EvGo] \/ cfg_trace s = EvGo :: t.
Proof.
  unfold inv_started, worker_pending. destruct (cfg_main s); naive_solver.
Qed.

Lemma started_trace_In (s : config T) (ev : event) :
  inv_started ctx t v s ->
  In ev (cfg_trace s) ->
  ev = EvGo \/ In ev t.
Proof.
  intros Hinv Hin. destruct (started_trace s Hinv) as [Ht|[Ht|Ht]];
    rewrite Ht in Hin; cbn in Hin; naive_solver.
Qed.

End Observations.

Lemma SnapToRoad_inv `{Runtime} (c : Client) (ctx : Context) (r : SnapToRoadRequest)
    (done : bool) (schedule : list label) (s : config SnapToRoadResponse) :
  SnapToRoad c ctx r done schedule = Some s ->
  (SnapToRoadRequest_Path r = [] /\ cfg_trace s = [] /\ cfg_worker s = WNone) \/
  (SnapToRoadRequest_Path r <> [] /\
   inv_started ctx (fst (doGetSnapToRoad c r)) (snd (doGetSnapToRoad c r)) s).
Proof.
  unfold SnapToRoad, SnapToRoad_entry. destruct (decide _) as [Hlen|Hlen]; intros Hex.
  - left. apply length_zero_iff_nil in Hlen.
    apply exec_rejected in Hex; [|apply inv_rejected_init].
    destruct Hex as (? & ? & _). done.
  - right. split; [by intros Hp; rewrite Hp in Hlen|].
    rewrite (surjective_pairing (doGetSnapToRoad c r)) in Hex.
    eapply exec_started; [apply inv_started_init|exact Hex].
Qed.

Lemma SpeedLimits_inv `{Runtime} (c : Client) (ctx : Context) (r : SpeedLimitsRequest)
    (done : bool) (schedule : list label) (s : config SpeedLimitsResponse) :
  SpeedLimits c ctx r done schedule = Some s ->
  (SpeedLimitsRequest_Path r = [] /\ SpeedLimitsRequest_PlaceID r = [] /\
   cfg_trace s = [] /\ cfg_worker s = WNone) \/
  ((SpeedLimitsRequest_Path r <> [] \/ SpeedLimitsRequest_PlaceID r <> []) /\
   inv_started ctx (fst (doGetSpeedLimits c r)) (snd (doGetSpeedLimits c r)) s).
Proof.
  unfold SpeedLimits, SpeedLimits_entry. destruct (decide _) as [Hlen|Hlen]; intros Hex.
  - left. destruct Hlen as [Hp Hi]. apply length_zero_iff_nil in Hp, Hi.
    apply exec_rejected in Hex; [|apply inv_rejected_init].
    destruct Hex as (? & ? & _). done.
  - right. split.
    + destruct (SpeedLimitsRequest_Path r); [|by left].
      destruct (SpeedLimitsRequest_PlaceID r); [|by right].
      by destruct Hlen.
    + rewrite (surjective_pairing (doGetSpeedLimits c r)) in Hex.
      eapply exec_started; [apply inv_started_init|exact Hex].
Qed.

(** * Error propagation *)

Lemma doGetSnapToRoad_auth_error `{Runtime} (c : Client) (r : SnapToRoadRequest)
    (path : string) (q : Values) (isPost : bool) (e : error) :
  In (EvGenerateAuthQuery path q isPost) (fst (doGetSnapToRoad c r)) ->
  Client_generateAuthQuery c path q isPost = inl e ->
  doGetSnapToRoad c r = ([EvGenerateAuthQuery path q isPost], (None, Some e)).
Proof.
  rewrite doGetSnapToRoad_eq.
  destruct (NewRequest _ _) as [e0|req]; [cbn; intros Hin; destruct Hin|]. cbn zeta.
  destruct (Client_generateAuthQuery c _ _ false) as [e1|query] eqn:Hauth.
  - cbn. intros [[= <- <- <-]|[]] Hq. congruence.
  - destruct (Client_httpDo c _); cbn; intros Hin Hq;
      (destruct Hin as [Heq|Hin];
       [injection Heq as <- <- <-; congruence
       |repeat (destruct Hin as [Heq|Hin]; [discriminate|]); destruct Hin]).
Qed.

Lemma doGetSpeedLimits_auth_error `{Runtime} (c : Client) (r : SpeedLimitsRequest)
    (path : string) (q : Values) (isPost : bool) (e : error) :
  In (EvGenerateAuthQuery path q isPost) (fst (doGetSpeedLimits c r)) ->
  Client_generateAuthQuery c path q isPost = inl e ->
  doGetSpeedLimits c r = ([EvGenerateAuthQuery path q isPost], (None, Some e)).
Proof.
  rewrite doGetSpeedLimits_eq.
  destruct (NewRequest _ _) as [e0|req]; [cbn; intros Hin; destruct Hin|]. cbn zeta.
  destruct (Client_generateAuthQuery c _ _ false) as [e1|query] eqn:Hauth.
  - cbn. intros [[= <- <- <-]|[]] Hq. congruence.
  - destruct (Client_httpDo c _); cbn; intros Hin Hq;
      (destruct Hin as [Heq|Hin];
       [injection Heq as <- <- <-; congruence
       |repeat (destruct Hin as [Heq|Hin]; [discriminate|]); destruct Hin]).
Qed.

(** C7. When the call of [generateAuthQuery] made by [doGetSnapToRoad] or
    [doGetSpeedLimits] fails with [e], the blocking call returns nil and
    that very [e] and makes no [httpDo] call.  For the public operation
    on a request that passes validation: no schedule records an [httpDo]
    call, and what the caller returns is [e] itself when it takes the
    worker's result, the reason of the cancellation otherwise. *)
Theorem auth_error_propagates `{Runtime} (c : Client) (ctx : Context) (e : error)
    (path : string) (q : Values) (isPost : bool) :
  Client_generateAuthQuery c path q isPost = inl e ->
  (forall r : SnapToRoadRequest,
     In (EvGenerateAuthQuery path q isPost) (fst (doGetSnapToRoad c r)) ->
     snd (doGetSnapToRoad c r) = (None, Some e) /\
     (forall ev, In ev (fst (doGetSnapToRoad c r)) -> is_EvHttpDo ev = false) /\
     forall done schedule s,
       SnapToRoadRequest_Path r <> [] ->
       SnapToRoad c ctx r done schedule = Some s ->
       (forall ev, In ev (cfg_trace s) -> is_EvHttpDo ev = false) /\
       (cfg_worker s = WExited -> returned s = Some (None, Some e)) /\
       (forall res, returned s = Some res ->
          res = (None, Some e) \/
          (cfg_done s = true /\ res = (None, Some (Context_Err ctx))))) /\
  (forall r : SpeedLimitsRequest,
     In (EvGenerateAuthQuery path q isPost) (fst (doGetSpeedLimits c r)) ->
     snd (doGetSpeedLimits c r) = (None, Some e) /\
     (forall ev, In ev (fst (doGetSpeedLimits c r)) -> is_EvHttpDo ev = false) /\
     forall done schedule s,
       SpeedLimitsRequest_Path r <> [] \/ SpeedLimitsRequest_PlaceID r <> [] ->
       SpeedLimits c ctx r done schedule = Some s ->
       (forall ev, In ev (cfg_trace s) -> is_EvHttpDo ev = false) /\
       (cfg_worker s = WExited -> returned s = Some (None, Some e)) /\
       (forall res, returned s = Some res ->
          res = (None, Some e) \/
          (cfg_done s = true /\ res = (None, Some (Context_Err ctx))))).
Proof.
  intros Hauth. split.
  - intros r Hin.
    pose proof (doGetSnapToRoad_auth_error c r path q isPost e Hin Hauth) as Heq.
    split; [by rewrite Heq|]. split.
    { rewrite Heq. cbn. intros ev [<-|[]]. done. }
    intros done schedule s Hne Hex.
    destruct (SnapToRoad_inv c ctx r done schedule s Hex)
      as [(Hp & _)|[_ Hinv]]; [done|].
    rewrite Heq in Hinv. cbn [fst snd] in Hinv. split; [|split].
    + intros ev Hev.
      destruct (started_trace_In ctx _ _ s ev Hinv Hev) as [->|[<-|[]]]; done.
    + exact (started_exited ctx _ _ s Hinv).
    + intros res Hres.
      destruct (started_returned ctx _ _ s res Hinv Hres) as [[_ ->]|(_ & ? & ->)];
        [by left|by right].
  - intros r Hin.
    pose proof (doGetSpeedLimits_auth_error c r path q isPost e Hin Hauth) as Heq.
    split; [by rewrite Heq|]. split.
    { rewrite Heq. cbn. intros ev [<-|[]]. done. }
    intros done schedule s Hne Hex.
    destruct (SpeedLimits_inv c ctx r done schedule s Hex)
      as [(Hp & Hi & _)|[_ Hinv]]; [by destruct Hne|].
    rewrite Heq in Hinv. cbn [fst snd] in Hinv. split; [|split].
    + intros ev Hev.
      destruct (started_trace_In ctx _ _ s ev Hinv Hev) as [->|[<-|[]]]; done.
    + exact (started_exited ctx _ _ s Hinv).
    + intros res Hres.
      destruct (started_returned ctx _ _ s res Hinv Hres) as [[_ ->]|(_ & ? & ->)];
        [by left|by right].
Qed.

Lemma auth_error_propagates_witness :
  snd (@doGetSnapToRoad stub_Runtime (stub_Client_auth_fails (opaque "no key"))
         (@mkSnapToRoadRequest stub_Runtime [stub_point "1" "2"] false))
  = (None, Some (opaque "no key")) /\
  snd (@doGetSpeedLimits stub_Runtime (stub_Client_auth_fails (opaque "no key"))
         (@mkSpeedLimitsRequest stub_Runtime [] ["a"] ""))
  = (None, Some (opaque "no key")).
Proof.
  split.
  - apply (proj1 (@auth_error_propagates stub_Runtime
                    (stub_Client_auth_fails (opaque "no key")) (mkContext Canceled)
                    (opaque "no key") "https://roads.googleapis.com//v1/snapToRoads"
                    (@snapToRoadQuery stub_Runtime ∅
                       (@mkSnapToRoadRequest stub_Runtime [stub_point "1" "2"] false))
                    false eq_refl)
             (@mkSnapToRoadRequest stub_Runtime [stub_point "1" "2"] false)).
    left. reflexivity.
  - apply (proj2 (@auth_error_propagates stub_Runtime
                    (stub_Client_auth_fails (opaque "no key")) (mkContext Canceled)
                    (opaque "no key") "https://roads.googleapis.com//v1/speedLimits"
                    (@speedLimitsQuery stub_Runtime ∅
                       (@mkSpeedLimitsRequest stub_Runtime [] ["a"] ""))
                    false eq_refl)
             (@mkSpeedLimitsRequest stub_Runtime [] ["a"] "")).
    left. reflexivity.
Defined.

(** Of the error paths of the two blocking calls only the decode path
    returns a response with the error: a non-nil response together with
    a non-nil error is what the decoder left in the struct and the error
    it saved. *)
Lemma doGetSnapToRoad_response_with_error `{Runtime} (c : Client)
    (r : SnapToRoadRequest) (response : SnapToRoadResponse) (e : error) :
  snd (doGetSnapToRoad c r) = (Some response, Some e) ->
  exists req query resp,
    NewRequest "GET" (baseURL_of c +:+ "/v1/snapToRoads") = inr req /\
    Client_generateAuthQuery c (URL_Path (Request_URL req))
      (snapToRoadQuery (URL_Query (Request_URL req)) r) false = inr query /\
    Client_httpDo c (mkRequest (Request_Method req)
                       (mkURL (URL_Path (Request_URL req)) query)) = inr resp /\
    Decode_SnapToRoadResponse (Response_Body resp) SnapToRoadResponse_zero
    = (response, Some e).
Proof.
  rewrite doGetSnapToRoad_eq.
  destruct (NewRequest _ _) as [e0|req]; [discriminate|]. cbn zeta.
  destruct (Client_generateAuthQuery c _ _ false) as [e1|query] eqn:Hauth;
    [discriminate|].
  destruct (Client_httpDo c _) as [e2|resp] eqn:Hdo; [discriminate|].
  cbn. intros [= <- He]. exists req, query, resp. repeat split; [done..|].
  rewrite <- He. apply surjective_pairing.
Qed.

Lemma doGetSpeedLimits_response_with_error `{Runtime} (c : Client)
    (r : SpeedLimitsRequest) (response : SpeedLimitsResponse) (e : error) :
  snd (doGetSpeedLimits c r) = (Some response, Some e) ->
  exists req query resp,
    NewRequest "GET" (baseURL_of c +:+ "/v1/speedLimits") = inr req /\
    Client_generateAuthQuery c (URL_Path (Request_URL req))
      (speedLimitsQuery (URL_Query (Request_URL req)) r) false = inr query /\
    Client_httpDo c (mkRequest (Request_Method req)
                       (mkURL (URL_Path (Request_URL req)) query)) = inr resp /\
    Decode_SpeedLimitsResponse (Response_Body resp) SpeedLimitsResponse_zero
    = (response, Some e).
Proof.
  rewrite doGetSpeedLimits_eq.
  destruct (NewRequest _ _) as [e0|req]; [discriminate|]. cbn zeta.
  destruct (Client_generateAuthQuery c _ _ false) as [e1|query] eqn:Hauth;
    [discriminate|].
  destruct (Client_httpDo c _) as [e2|resp] eqn:Hdo; [discriminate|].
  cbn. intros [= <- He]. exists req, query, resp. repeat split; [done..|].
  rewrite <- He. apply surjective_pairing.
Qed.

(** C1. Evaluation at two bodies the transport can deliver.  With a body
    whose second point has a number for [placeId], and with a body that
    is not well-formed JSON, both blocking calls return a non-nil error
    together with a non-nil response (holding the first point in the
    first case), and the public operations hand that pair to the
    caller. *)
Theorem decode_error_returns_response :
  let partial := Document (JObject [("snappedPoints", JArray
                   [JObject [("placeId", JString "p1")];
                    JObject [("placeId", JNumber "7")]])]) in
  let broken := Malformed (SyntaxError "unexpected end of JSON input") in
  let r1 := @mkSnapToRoadRequest stub_Runtime [stub_point "1" "2"] false in
  let r2 := @mkSpeedLimitsRequest stub_Runtime [] ["p1"] "" in
  let p1 := @mkSnappedPoint stub_Runtime (stub_point "0" "0") None "p1" in
  let p2 := @mkSnappedPoint stub_Runtime (stub_point "0" "0") None "" in
  snd (@doGetSnapToRoad stub_Runtime (stub_Client partial) r1)
  = (Some (@mkSnapToRoadResponse stub_Runtime [p1; p2]),
     Some (UnmarshalTypeError "number" "string")) /\
  snd (@doGetSnapToRoad stub_Runtime (stub_Client broken) r1)
  = (Some (@mkSnapToRoadResponse stub_Runtime []),
     Some (SyntaxError "unexpected end of JSON input")) /\
  snd (@doGetSpeedLimits stub_Runtime (stub_Client partial) r2)
  = (Some (@mkSpeedLimitsResponse stub_Runtime [] [p1; p2]),
     Some (UnmarshalTypeError "number" "string")) /\
  snd (@doGetSpeedLimits stub_Runtime (stub_Client broken) r2)
  = (Some (@mkSpeedLimitsResponse stub_Runtime [] []),
     Some (SyntaxError "unexpected end of JSON input")) /\
  (returned <$> @SnapToRoad stub_Runtime (stub_Client partial) (mkContext Canceled)
                  r1 false [LEnter; LWorker; LRecv])
  = Some (Some (Some (@mkSnapToRoadResponse stub_Runtime [p1; p2]),
                Some (UnmarshalTypeError "number" "string"))) /\
  (returned <$> @SpeedLimits stub_Runtime (stub_Client broken) (mkContext Canceled)
                  r2 false [LEnter; LWorker; LRecv])
  = Some (Some (Some (@mkSpeedLimitsResponse stub_Runtime [] []),
                Some (SyntaxError "unexpected end of JSON input"))).
Proof. cbv zeta. repeat split; vm_compute; reflexivity. Qed.

(** * Decoding *)

Lemma decode_members_app {A : Type}
    (f : string -> json -> A -> A * option error)
    (l1 l2 : list (string * json)) (cur : A) :
  decode_members f (l1 ++ l2) cur
  = (fst (decode_members f l2 (fst (decode_members f l1 cur))),
     saveError (snd (decode_members f l1 cur))
       (snd (decode_members f l2 (fst (decode_members f l1 cur))))).
Proof.
  revert cur. induction l1 as [|[k v] l1 IH]; intros cur; cbn.
  - by destruct (decode_members f l2 cur).
  - destruct (f k v cur) as [a e]. rewrite IH.
    destruct (decode_members f l1 a) as [a1 e1]. cbn.
    destruct (decode_members f l2 a1) as [a2 e2]. cbn.
    by destruct e, e1.
Qed.

(** A key is stored only into a field whose name it matches. *)
Lemma lookupField_Some `{Runtime} {F : Type} (fields : list (string * F))
    (key : string) (f : F) :
  lookupField fields key = Some f ->
  exists name, In (name, f) fields /\ key_matches name key = true.
Proof.
  unfold lookupField, key_matches.
  destruct (List.find (fun f => String.eqb (fst f) key) fields) as [[n g]|] eqn:Hexact.
  - intros [= <-]. apply find_some in Hexact as [Hin Heq]. cbn in *.
    exists n. split; [done|]. by rewrite Heq.
  - destruct (List.find (fun f => equalFold (fst f) key) fields) as [[n g]|] eqn:Hfold;
      [|done].
    cbn. intros [= <-]. apply find_some in Hfold as [Hin Heq]. cbn in *.
    exists n. split; [done|]. rewrite Heq. apply orb_true_r.
Qed.

Lemma lookupField_originalIndex `{Runtime} (key : string) :
  key_matches "originalIndex" key = false ->
  lookupField SnappedPoint_fields key <> Some SnappedPoint_originalIndex.
Proof.
  intros Hno Hsome. apply lookupField_Some in Hsome as (name & Hin & Hm).
  unfold SnappedPoint_fields in Hin. cbn in Hin.
  destruct Hin as [Heq|[Heq|[Heq|[]]]]; try discriminate.
  injection Heq as <-. congruence.
Qed.

Lemma lookupField_snappedPoints `{Runtime} (key : string) :
  key_matches "snappedPoints" key = false ->
  lookupField [("snappedPoints", tt)] key = None.
Proof.
  intros Hno. destruct (lookupField _ key) as [[]|] eqn:Hsome; [|done].
  apply lookupField_Some in Hsome as (name & Hin & Hm).
  destruct Hin as [Heq|[]]. injection Heq as <-. congruence.
Qed.

(** Members that are not stored into [OriginalIndex] leave it as it is. *)
Lemma decode_SnappedPoint_field_other `{Runtime} (k : string) (v : json)
    (cur : SnappedPoint) :
  lookupField SnappedPoint_fields k <> Some SnappedPoint_originalIndex ->
  SnappedPoint_OriginalIndex (fst (decode_SnappedPoint_field k v cur))
  = SnappedPoint_OriginalIndex cur.
Proof.
  intros Hk. unfold decode_SnappedPoint_field.
  destruct (lookupField SnappedPoint_fields k) as [[]|]; [| done | |done].
  - by destruct (decode_LatLng v _).
  - by destruct (decode_string _ v _).
Qed.

Lemma decode_members_SnappedPoint_other `{Runtime} (members : list (string * json))
    (cur : SnappedPoint) :
  (forall k v, In (k, v) members ->
     lookupField SnappedPoint_fields k <> Some SnappedPoint_originalIndex) ->
  SnappedPoint_OriginalIndex (fst (decode_members decode_SnappedPoint_field members cur))
  = SnappedPoint_OriginalIndex cur.
Proof.
  revert cur. induction members as [|[k v] members IH]; intros cur Hall; [done|].
  cbn. pose proof (decode_SnappedPoint_field_other k v cur (Hall k v (or_introl eq_refl)))
    as Hk.
  destruct (decode_SnappedPoint_field k v cur) as [a e]. cbn in Hk.
  specialize (IH a (fun k' v' Hin => Hall k' v' (or_intror Hin))).
  destruct (decode_members decode_SnappedPoint_field members a) as [a' e'].
  cbn in *. congruence.
Qed.

(** Decoding an array into an empty slice decodes each element into a
    zero value of its own. *)
Lemma decode_elems_fresh {A : Type} (f : json -> A -> A * option error)
    (zero : A) (elems : list json) :
  fst (decode_elems f zero elems []) = (fun v => fst (f v zero)) <$> elems.
Proof.
  induction elems as [|v elems IH]; [done|]. cbn.
  destruct (f v zero) as [a e].
  destruct (decode_elems f zero elems []) as [l e']. cbn in *. by rewrite IH.
Qed.

Lemma decode_members_SnapToRoadResponse_other `{Runtime}
    (members : list (string * json)) (cur : SnapToRoadResponse) :
  (forall k v, In (k, v) members -> lookupField [("snappedPoints", tt)] k = None) ->
  decode_members decode_SnapToRoadResponse_field members cur = (cur, None).
Proof.
  revert cur. induction members as [|[k v] members IH]; intros cur Hall; [done|].
  cbn. unfold decode_SnapToRoadResponse_field at 1.
  rewrite (Hall k v (or_introl eq_refl)).
  rewrite IH; [done|]. intros k' v' Hin. apply (Hall k' v'). by right.
Qed.

(** C8. [OriginalIndex] has three states.  A JSON object with the member
    [originalIndex] equal to the number 0, and no later member whose key
    matches that field, decodes to a present index equal to 0; an object
    with no member whose key matches the field decodes, in a fresh
    [SnappedPoint], to an absent index; the two differ.  And the points
    of the response [doGetSnapToRoad] returns are the elements of the
    [snappedPoints] array of the body, each decoded in this way into a
    fresh [SnappedPoint]. *)
Theorem OriginalIndex_tri_state `{Runtime} :
  (forall (before after : list (string * json)) (cur : SnappedPoint),
     (forall k v, In (k, v) after -> key_matches "originalIndex" k = false) ->
     SnappedPoint_OriginalIndex
       (fst (decode_SnappedPoint
               (JObject (before ++ ("originalIndex", JNumber "0") :: after)) cur))
     = Some 0) /\
  (forall members : list (string * json),
     (forall k v, In (k, v) members -> key_matches "originalIndex" k = false) ->
     SnappedPoint_OriginalIndex
       (fst (decode_SnappedPoint (JObject members) SnappedPoint_zero))
     = None) /\
  Some 0 <> (None : option Z) /\
  (forall (c : Client) (r : SnapToRoadRequest) (req : Request) (query : string)
          (before after : list (string * json)) (elems : list json),
     NewRequest "GET" (baseURL_of c +:+ "/v1/snapToRoads") = inr req ->
     Client_generateAuthQuery c (URL_Path (Request_URL req))
       (snapToRoadQuery (URL_Query (Request_URL req)) r) false = inr query ->
     Client_httpDo c (mkRequest (Request_Method req)
                        (mkURL (URL_Path (Request_URL req)) query))
     = inr (mkResponse (Document
              (JObject (before ++ ("snappedPoints", JArray elems) :: after)))) ->
     (forall k v, In (k, v) (before ++ after) ->
        key_matches "snappedPoints" k = false) ->
     exists response err,
       snd (doGetSnapToRoad c r) = (Some response, err) /\
       SnapToRoadResponse_SnappedPoints response
       = (fun v => fst (decode_SnappedPoint v SnappedPoint_zero)) <$> elems).
Proof.
  split; [|split; [|split; [done|]]].
  - intros before after cur Hafter. unfold decode_SnappedPoint, decode_struct.
    rewrite decode_members_app. cbn [fst snd].
    set (cur1 := fst (decode_members decode_SnappedPoint_field before cur)).
    cbn [decode_members].
    replace (decode_SnappedPoint_field "originalIndex" (JNumber "0") cur1)
      with (mkSnappedPoint _ (SnappedPoint_Location cur1) (Some 0)
              (SnappedPoint_PlaceID cur1), @None error) by reflexivity.
    pose proof (decode_members_SnappedPoint_other after
      (mkSnappedPoint _ (SnappedPoint_Location cur1) (Some 0)
         (SnappedPoint_PlaceID cur1))
      (fun k v Hin => lookupField_originalIndex k (Hafter k v Hin))) as Hkeep.
    destruct (decode_members decode_SnappedPoint_field after _) as [a e].
    exact Hkeep.
  - intros members Hall. unfold decode_SnappedPoint, decode_struct.
    rewrite decode_members_SnappedPoint_other; [done|].
    intros k v Hin. apply lookupField_originalIndex, (Hall k v Hin).
  - intros c r req query before after elems Hreq Hauth Hdo Hother.
    rewrite doGetSnapToRoad_eq, Hreq. cbn zeta. rewrite Hauth, Hdo.
    cbn [snd Response_Body Decode_SnapToRoadResponse decode_struct].
    eexists _, _. split; [reflexivity|].
    rewrite decode_members_app. cbn [fst snd].
    rewrite (decode_members_SnapToRoadResponse_other before)
      by (intros k v Hin; apply lookupField_snappedPoints, (Hother k v), in_or_app;
          by left).
    cbn [fst decode_members].
    replace (decode_SnapToRoadResponse_field "snappedPoints" (JArray elems)
               SnapToRoadResponse_zero)
      with (mkSnapToRoadResponse _
              (fst (decode_elems decode_SnappedPoint SnappedPoint_zero elems [])),
            snd (decode_elems decode_SnappedPoint SnappedPoint_zero elems [])).
    2:{ unfold decode_SnapToRoadResponse_field.
        replace (lookupField [("snappedPoints", ())] "snappedPoints")
          with (Some tt) by reflexivity.
        cbn. by destruct (decode_elems _ _ _ _). }
    rewrite (decode_members_SnapToRoadResponse_other after)
      by (intros k v Hin; apply lookupField_snappedPoints, (Hother k v), in_or_app;
          by right).
    cbn. apply decode_elems_fresh.
Qed.

Lemma OriginalIndex_tri_state_witness :
  SnappedPoint_OriginalIndex
    (fst (@decode_SnappedPoint stub_Runtime
            (JObject [("location", JObject [("lat", JNumber "1"); ("lng", JNumber "2")]);
                      ("originalIndex", JNumber "0");
                      ("placeId", JString "p1")])
            (@SnappedPoint_zero stub_Runtime)))
  = Some 0 /\
  SnappedPoint_OriginalIndex
    (fst (@decode_SnappedPoint stub_Runtime
            (JObject [("location", JObject [("lat", JNumber "1"); ("lng", JNumber "2")]);
                      ("placeId", JString "p1")])
            (@SnappedPoint_zero stub_Runtime)))
  = None /\
  exists response err,
    snd (@doGetSnapToRoad stub_Runtime
           (stub_Client (Document (JObject [("snappedPoints", JArray [JObject
              [("location", JObject [("lat", JNumber "1"); ("lng", JNumber "2")]);
               ("originalIndex", JNumber "0");
               ("placeId", JString "p1")]])])))
           (@mkSnapToRoadRequest stub_Runtime [stub_point "1" "2"] false))
    = (Some response, err) /\
    SnapToRoadResponse_SnappedPoints response
    = [@mkSnappedPoint stub_Runtime (stub_point "1" "2") (Some 0) "p1"].
Proof.
  destruct (@OriginalIndex_tri_state stub_Runtime) as (Hzero & Habsent & _ & Hbody).
  split; [|split].
  - apply (Hzero [("location", JObject [("lat", JNumber "1"); ("lng", JNumber "2")])]
             [("placeId", JString "p1")]).
    intros k v [Heq|[]]. injection Heq as <- <-. reflexivity.
  - apply Habsent.
    intros k v [Heq|[Heq|[]]]; injection Heq as <- <-; reflexivity.
  - destruct (Hbody
      (stub_Client (Document (JObject [("snappedPoints", JArray [JObject
         [("location", JObject [("lat", JNumber "1"); ("lng", JNumber "2")]);
          ("originalIndex", JNumber "0");
          ("placeId", JString "p1")]])])))
      (@mkSnapToRoadRequest stub_Runtime [stub_point "1" "2"] false)
      (mkRequest "GET" (mkURL "http://stub/v1/snapToRoads" "")) "signed"
      [] []
      [JObject [("location", JObject [("lat", JNumber "1"); ("lng", JNumber "2")]);
                ("originalIndex", JNumber "0");
                ("placeId", JString "p1")]]
      eq_refl eq_refl eq_refl (fun k v (Hin : In (k, v) []) => match Hin with end))
      as (response & err & Hres & Hpoints).
    exists response, err. split; [exact Hres|]. rewrite Hpoints. reflexivity.
Defined.

(** * Cancellation *)

Section SelectOutcome.
Context {T : Type} (ctx : Context) (t : list event) (v : result T).

(** What the [select] of a started call can give, for every schedule
    that reaches the configuration [s]. *)
Lemma call_outcome (done : bool) (schedule : list label) (s : config T) :
  exec ctx (inr (t, v)) schedule (init done) = Some s ->
  select_outcome ctx v (fun ls => exec ctx (inr (t, v)) ls (init done)) schedule s.
Proof.
  intros Hex. unfold select_outcome.
  pose proof (exec_started ctx t v schedule _ s (inv_started_init ctx t v done) Hex)
    as Hinv.
  split; [|split].
  - intros res Hres. by apply (started_returned ctx t v s res Hinv).
  - intros Hm Hd Hw.
    destruct (select_only_done ctx (inr (t, v)) s Hm Hd) as [Hrecv [s1 [Hdone Hm1]]].
    { intros v'. by rewrite Hw. }
    rewrite !exec_app, Hex. cbn [exec]. rewrite Hrecv, Hdone.
    split; [done|]. split; [by eexists|].
    intros later s' Hlater. rewrite exec_app, Hex in Hlater. cbn [exec] in Hlater.
    rewrite Hdone in Hlater.
    unfold returned.
    by rewrite (exec_returned_stable ctx _ later s1 s' _ Hm1 Hlater).
  - intros Hm Hd Hw.
    destruct (select_both_ready ctx (inr (t, v)) s v Hm Hd Hw)
      as [[s1 [Hs1 Hm1]] [s2 [Hs2 Hm2]]].
    rewrite !exec_app, Hex. cbn [exec]. rewrite Hs1, Hs2. unfold returned. split.
    + exists s1. by rewrite Hm1.
    + exists s2. by rewrite Hm2.
Qed.

End SelectOutcome.

(** C9, as the code has it.  For a request that passes validation, at
    every configuration a schedule reaches: the caller returns either
    the result of the blocking call, taken from the worker, or nil with
    [ctx.Err()], never both and nothing else; when [ctx.Done()] is closed
    and the worker has not offered its result as the [select] is
    resolved, the caller returns nil with [ctx.Err()] and keeps that
    result whatever the blocking call produces later; when the worker
    has already offered its result, the [select] can take either
    case. *)
Theorem select_resolution `{Runtime} (c : Client) (ctx : Context) (done : bool)
    (schedule : list label) :
  (forall (r : SnapToRoadRequest) (s : config SnapToRoadResponse),
     SnapToRoadRequest_Path r <> [] ->
     SnapToRoad c ctx r done schedule = Some s ->
     select_outcome ctx (snd (doGetSnapToRoad c r)) (SnapToRoad c ctx r done)
       schedule s) /\
  (forall (r : SpeedLimitsRequest) (s : config SpeedLimitsResponse),
     SpeedLimitsRequest_Path r <> [] \/ SpeedLimitsRequest_PlaceID r <> [] ->
     SpeedLimits c ctx r done schedule = Some s ->
     select_outcome ctx (snd (doGetSpeedLimits c r)) (SpeedLimits c ctx r done)
       schedule s).
Proof.
  split.
  - intros r s Hne. unfold SnapToRoad.
    assert (Hentry : SnapToRoad_entry c r
                     = inr (fst (doGetSnapToRoad c r), snd (doGetSnapToRoad c r))).
    { unfold SnapToRoad_entry. destruct (decide _) as [Hlen|_].
      - apply length_zero_iff_nil in Hlen. done.
      - by rewrite <- surjective_pairing. }
    rewrite Hentry. apply call_outcome.
  - intros r s Hne. unfold SpeedLimits.
    assert (Hentry : SpeedLimits_entry c r
                     = inr (fst (doGetSpeedLimits c r), snd (doGetSpeedLimits c r))).
    { unfold SpeedLimits_entry. destruct (decide _) as [[Hp Hi]|_].
      - apply length_zero_iff_nil in Hp, Hi. by destruct Hne.
      - by rewrite <- surjective_pairing. }
    rewrite Hentry. apply call_outcome.
Qed.

Lemma select_resolution_witness :
  @SnapToRoad stub_Runtime (stub_Client (Document JNull)) (mkContext DeadlineExceeded)
    (@mkSnapToRoadRequest stub_Runtime [stub_point "1" "2"] false) false
    ([LCancel; LEnter] ++ [LRecv]) = None /\
  (exists s',
     @SnapToRoad stub_Runtime (stub_Client (Document JNull)) (mkContext DeadlineExceeded)
       (@mkSnapToRoadRequest stub_Runtime [stub_point "1" "2"] false) false
       ([LCancel; LEnter] ++ [LDone]) = Some s') /\
  forall later s',
    @SnapToRoad stub_Runtime (stub_Client (Document JNull)) (mkContext DeadlineExceeded)
      (@mkSnapToRoadRequest stub_Runtime [stub_point "1" "2"] false) false
      ([LCancel; LEnter] ++ LDone :: later) = Some s' ->
    returned s' = Some (None, Some DeadlineExceeded).
Proof.
  destruct (proj1 (@select_resolution stub_Runtime (stub_Client (Document JNull))
                     (mkContext DeadlineExceeded) false [LCancel; LEnter])
              (@mkSnapToRoadRequest stub_Runtime [stub_point "1" "2"] false)
              (mkConfig MSelect WRunning true [EvGo]))
    as (_ & Honly & _).
  - discriminate.
  - reflexivity.
  - apply Honly; reflexivity.
Defined.

(** C9 as stated fails.  In the schedule below [ctx.Done()] is closed
    before the operation is even entered, hence before the blocking call
    delivers anything; the worker then completes its call and blocks in
    its send; the [select] finds both cases ready and takes the receive.
    The caller returns the decoded response and a nil error, not the
    reason of the cancellation.  The same happens with a context that is
    already cancelled when the operation is called. *)
Lemma cancel_first_result_delivered :
  let body := Document (JObject [("snappedPoints", JArray [JObject
                [("location", JObject [("lat", JNumber "1"); ("lng", JNumber "2")]);
                 ("originalIndex", JNumber "0");
                 ("placeId", JString "p1")]])]) in
  let r := @mkSnapToRoadRequest stub_Runtime [stub_point "1" "2"] false in
  let response := @mkSnapToRoadResponse stub_Runtime
                    [@mkSnappedPoint stub_Runtime (stub_point "1" "2") (Some 0) "p1"] in
  fires_before_delivery false [LCancel; LEnter; LWorker; LRecv] = true /\
  (returned <$> @SnapToRoad stub_Runtime (stub_Client body) (mkContext Canceled) r
                  false [LCancel; LEnter; LWorker; LRecv])
  = Some (Some (Some response, None)) /\
  fires_before_delivery true [LEnter; LWorker; LRecv] = true /\
  (returned <$> @SnapToRoad stub_Runtime (stub_Client body) (mkContext Canceled) r
                  true [LEnter; LWorker; LRecv])
  = Some (Some (Some response, None)) /\
  (Some response, @None error) <> (None, Some (Context_Err (mkContext Canceled))).
Proof. cbv zeta. repeat split; try (vm_compute; reflexivity). discriminate. Qed.

(** * Further properties of the request construction *)

Lemma snapToRoadQuery_interpolate `{Runtime} (q0 : Values) (r : SnapToRoadRequest) :
  snapToRoadQuery q0 r !! "interpolate"
  = if SnapToRoadRequest_Interpolate r then Some ["true"] else q0 !! "interpolate".
Proof.
  unfold snapToRoadQuery. destruct (SnapToRoadRequest_Interpolate r).
  - apply Values_Set_lookup.
  - by apply Values_Set_lookup_ne.
Qed.

(** X1. When the fresh request carries no [interpolate] parameter, the
    query handed to [generateAuthQuery] by [doGetSnapToRoad] has an
    [interpolate] parameter exactly when [Interpolate] is true, and its
    only value is then "true": a false flag is never written out. *)
Theorem interpolate_parameter `{Runtime} (c : Client) (r : SnapToRoadRequest)
    (req : Request) :
  NewRequest "GET" (baseURL_of c +:+ "/v1/snapToRoads") = inr req ->
  URL_Query (Request_URL req) !! "interpolate" = None ->
  exists q tl,
    fst (doGetSnapToRoad c r)
    = EvGenerateAuthQuery (URL_Path (Request_URL req)) q false :: tl /\
    (has_param q "interpolate" <-> SnapToRoadRequest_Interpolate r = true) /\
    (SnapToRoadRequest_Interpolate r = true -> q !! "interpolate" = Some ["true"]) /\
    (SnapToRoadRequest_Interpolate r = false -> q !! "interpolate" = None).
Proof.
  intros Hreq Hnone.
  destruct (doGetSnapToRoad_auth_event c r req Hreq) as [tl Htl].
  eexists _, tl. split; [exact Htl|].
  unfold has_param. rewrite snapToRoadQuery_interpolate, Hnone.
  destruct (SnapToRoadRequest_Interpolate r); repeat split; try done; eauto;
    by intros [x Hx].
Qed.

Lemma interpolate_parameter_witness :
  (exists q tl,
     fst (@doGetSnapToRoad stub_Runtime (stub_Client (Document JNull))
            (@mkSnapToRoadRequest stub_Runtime [stub_point "1" "2"] true))
     = EvGenerateAuthQuery "http://stub/v1/snapToRoads" q false :: tl /\
     q !! "interpolate" = Some ["true"]) /\
  (exists q tl,
     fst (@doGetSnapToRoad stub_Runtime (stub_Client (Document JNull))
            (@mkSnapToRoadRequest stub_Runtime [stub_point "1" "2"] false))
     = EvGenerateAuthQuery "http://stub/v1/snapToRoads" q false :: tl /\
     q !! "interpolate" = None).
Proof.
  split.
  - destruct (@interpolate_parameter stub_Runtime (stub_Client (Document JNull))
                (@mkSnapToRoadRequest stub_Runtime [stub_point "1" "2"] true)
                (mkRequest "GET" (mkURL "http://stub/v1/snapToRoads" ""))
                eq_refl eq_refl) as (q & tl & Hev & _ & Hset & _).
    exists q, tl. split; [exact Hev|]. apply Hset. reflexivity.
  - destruct (@interpolate_parameter stub_Runtime (stub_Client (Document JNull))
                (@mkSnapToRoadRequest stub_Runtime [stub_point "1" "2"] false)
                (mkRequest "GET" (mkURL "http://stub/v1/snapToRoads" ""))
                eq_refl eq_refl) as (q & tl & Hev & _ & _ & Hunset).
    exists q, tl. split; [exact Hev|]. apply Hunset. reflexivity.
Defined.

Lemma snapToRoadQuery_other `{Runtime} (q0 : Values) (r : SnapToRoadRequest)
    (k : string) :
  k <> "path" -> k <> "interpolate" -> snapToRoadQuery q0 r !! k = q0 !! k.
Proof.
  intros Hp Hi. unfold snapToRoadQuery. destruct (SnapToRoadRequest_Interpolate r).
  - rewrite Values_Set_lookup_ne by done. by apply Values_Set_lookup_ne.
  - by apply Values_Set_lookup_ne.
Qed.

Lemma speedLimitsQuery_other `{Runtime} (q0 : Values) (r : SpeedLimitsRequest)
    (k : string) :
  k <> "path" -> k <> "placeId" -> k <> "units" ->
  speedLimitsQuery q0 r !! k = q0 !! k.
Proof.
  intros Hp Hi Hu. unfold speedLimitsQuery.
  assert (Hunits : forall q : Values,
    (if decide (SpeedLimitsRequest_Units r = "") then q
     else Values_Set q "units" (SpeedLimitsRequest_Units r)) !! k = q !! k).
  { intros q. destruct (decide _); [done|]. by apply Values_Set_lookup_ne. }
  rewrite Hunits, foldl_Values_Add_lookup_ne by done.
  destruct (0 <? _); [|done]. by apply Values_Set_lookup_ne.
Qed.

(** X2. The two blocking calls write no parameter of their own besides
    [path] and [interpolate] (snap-to-road), [path], [placeId] and
    [units] (speed limits): every other parameter of the query handed to
    [generateAuthQuery] is the one the fresh request already had, so with
    a fresh request without query the query has no other key. *)
Theorem query_writes_only_its_parameters `{Runtime} (c : Client) :
  (forall (r : SnapToRoadRequest) (req : Request),
     NewRequest "GET" (baseURL_of c +:+ "/v1/snapToRoads") = inr req ->
     exists q tl,
       fst (doGetSnapToRoad c r)
       = EvGenerateAuthQuery (URL_Path (Request_URL req)) q false :: tl /\
       (forall k, k <> "path" -> k <> "interpolate" ->
          q !! k = URL_Query (Request_URL req) !! k) /\
       (URL_Query (Request_URL req) = ∅ ->
        forall k, has_param q k -> k = "path" \/ k = "interpolate")) /\
  (forall (r : SpeedLimitsRequest) (req : Request),
     NewRequest "GET" (baseURL_of c +:+ "/v1/speedLimits") = inr req ->
     exists q tl,
       fst (doGetSpeedLimits c r)
       = EvGenerateAuthQuery (URL_Path (Request_URL req)) q false :: tl /\
       (forall k, k <> "path" -> k <> "placeId" -> k <> "units" ->
          q !! k = URL_Query (Request_URL req) !! k) /\
       (URL_Query (Request_URL req) = ∅ ->
        forall k, has_param q k -> k = "path" \/ k = "placeId" \/ k = "units")).
Proof.
  split.
  - intros r req Hreq.
    destruct (doGetSnapToRoad_auth_event c r req Hreq) as [tl Htl].
    eexists _, tl. split; [exact Htl|]. split.
    + intros k. apply snapToRoadQuery_other.
    + intros Hempty k [x Hx].
      destruct (decide (k = "path")) as [|Hp]; [by left|].
      destruct (decide (k = "interpolate")) as [|Hi]; [by right|].
      rewrite snapToRoadQuery_other, Hempty, lookup_empty in Hx by done. done.
  - intros r req Hreq.
    destruct (doGetSpeedLimits_auth_event c r req Hreq) as [tl Htl].
    eexists _, tl. split; [exact Htl|]. split.
    + intros k. apply speedLimitsQuery_other.
    + intros Hempty k [x Hx].
      destruct (decide (k = "path")) as [|Hp]; [by left|].
      destruct (decide (k = "placeId")) as [|Hi]; [by right; left|].
      destruct (decide (k = "units")) as [|Hu]; [by right; right|].
      rewrite speedLimitsQuery_other, Hempty, lookup_empty in Hx by done. done.
Qed.

Lemma query_writes_only_its_parameters_witness :
  exists q tl,
    fst (@doGetSpeedLimits stub_Runtime (stub_Client (Document JNull))
           (@mkSpeedLimitsRequest stub_Runtime [stub_point "1" "2"] ["a"] "KPH"))
    = EvGenerateAuthQuery "http://stub/v1/speedLimits" q false :: tl /\
    q !! "key" = None /\
    forall k, has_param q k -> k = "path" \/ k = "placeId" \/ k = "units".
Proof.
  destruct (proj2 (@query_writes_only_its_parameters stub_Runtime
                     (stub_Client (Document JNull)))
              (@mkSpeedLimitsRequest stub_Runtime [stub_point "1" "2"] ["a"] "KPH")
              (mkRequest "GET" (mkURL "http://stub/v1/speedLimits" ""))
              eq_refl) as (q & tl & Hev & Hother & Honly).
  exists q, tl. split; [exact Hev|]. split.
  - rewrite Hother by discriminate. reflexivity.
  - apply Honly. reflexivity.
Defined.

Lemma string_app_assoc (a b c : string) : (a +:+ b) +:+ c = a +:+ (b +:+ c).
Proof.
  induction a as [|x a IH]; [reflexivity|].
  change (String x ((a +:+ b) +:+ c) = String x (a +:+ (b +:+ c))).
  by rewrite IH.
Qed.

(** Joining a concatenation: the two joined parts, with one separator
    between them. *)
Lemma Join_app (l1 l2 : list string) (sep : string) :
  l1 <> [] -> l2 <> [] ->
  Join (l1 ++ l2) sep = Join l1 sep +:+ sep +:+ Join l2 sep.
Proof.
  intros H1 H2. induction l1 as [|x l1 IH]; [done|].
  destruct l1 as [|y l1].
  - cbn. by destruct l2.
  - change (Join ((x :: y :: l1) ++ l2) sep)
      with (x +:+ sep +:+ Join ((y :: l1) ++ l2) sep).
    rewrite IH by done.
    change (Join (x :: y :: l1) sep) with (x +:+ sep +:+ Join (y :: l1) sep).
    by rewrite !string_app_assoc.
Qed.

(** X3. The [path] value follows the order of the coordinates and
    composes: for a path made of two non-empty parts it is the value of
    the first part, one "|", and the value of the second part; for a
    single coordinate it is that coordinate's string form, with no
    separator. *)
Theorem path_value_composes `{Runtime} (q0 : Values) :
  (forall (l : LatLng) (i : bool),
     snapToRoadQuery q0 (mkSnapToRoadRequest _ [l] i) !! "path"
     = Some [LatLng_String l]) /\
  (forall (p1 p2 : list LatLng) (i : bool),
     p1 <> [] -> p2 <> [] ->
     exists v1 v2,
       snapToRoadQuery q0 (mkSnapToRoadRequest _ p1 i) !! "path" = Some [v1] /\
       snapToRoadQuery q0 (mkSnapToRoadRequest _ p2 i) !! "path" = Some [v2] /\
       snapToRoadQuery q0 (mkSnapToRoadRequest _ (p1 ++ p2) i) !! "path"
       = Some [v1 +:+ "|" +:+ v2]) /\
  (forall (p1 p2 : list LatLng) (ids : list string) (u : string),
     p1 <> [] -> p2 <> [] ->
     exists v1 v2,
       speedLimitsQuery q0 (mkSpeedLimitsRequest _ p1 ids u) !! "path" = Some [v1] /\
       speedLimitsQuery q0 (mkSpeedLimitsRequest _ p2 ids u) !! "path" = Some [v2] /\
       speedLimitsQuery q0 (mkSpeedLimitsRequest _ (p1 ++ p2) ids u) !! "path"
       = Some [v1 +:+ "|" +:+ v2]).
Proof.
  split; [|split].
  - intros l i. by rewrite snapToRoadQuery_path.
  - intros p1 p2 i H1 H2. eexists _, _.
    rewrite !snapToRoadQuery_path. cbn [SnapToRoadRequest_Path].
    split; [reflexivity|]. split; [reflexivity|].
    rewrite fmap_app, Join_app; [done| |]; by destruct p1, p2.
  - intros p1 p2 ids u H1 H2. eexists _, _.
    rewrite !speedLimitsQuery_path. cbn [SpeedLimitsRequest_Path].
    destruct p1 as [|a p1]; [done|]. destruct p2 as [|b p2]; [done|].
    split; [reflexivity|]. split; [reflexivity|].
    change ((a :: p1) ++ b :: p2)%list with (a :: (p1 ++ b :: p2))%list. cbv iota.
    change (a :: (p1 ++ b :: p2))%list with ((a :: p1) ++ b :: p2)%list.
    by rewrite fmap_app, Join_app.
Qed.

Lemma path_value_composes_witness :
  exists v1 v2,
    @snapToRoadQuery stub_Runtime ∅
      (@mkSnapToRoadRequest stub_Runtime [stub_point "1" "2"; stub_point "3" "4"] false)
      !! "path" = Some [v1] /\
    @snapToRoadQuery stub_Runtime ∅
      (@mkSnapToRoadRequest stub_Runtime [stub_point "5" "6"] false)
      !! "path" = Some [v2] /\
    @snapToRoadQuery stub_Runtime ∅
      (@mkSnapToRoadRequest stub_Runtime
         ([stub_point "1" "2"; stub_point "3" "4"] ++ [stub_point "5" "6"]) false)
      !! "path" = Some [v1 +:+ "|" +:+ v2].
Proof.
  apply (proj1 (proj2 (@path_value_composes stub_Runtime ∅))); discriminate.
Defined.

(** * Further properties of the error paths and of the trace *)

Lemma doGetSnapToRoad_trace `{Runtime} (c : Client) (r : SnapToRoadRequest) :
  blocking_call_trace c (fst (doGetSnapToRoad c r)).
Proof.
  rewrite doGetSnapToRoad_eq. unfold blocking_call_trace.
  destruct (NewRequest _ _) as [e0|req]; [by left|]. cbn zeta. right.
  exists (URL_Path (Request_URL req)), (snapToRoadQuery (URL_Query (Request_URL req)) r).
  destruct (Client_generateAuthQuery c _ _ false) as [e1|query] eqn:Hauth.
  - left. cbn. eauto.
  - right.
    exists query, (mkRequest (Request_Method req)
                     (mkURL (URL_Path (Request_URL req)) query)).
    split; [done|]. split; [reflexivity|].
    destruct (Client_httpDo c _) as [e2|resp] eqn:Hdo; cbn; eauto.
Qed.

Lemma doGetSpeedLimits_trace `{Runtime} (c : Client) (r : SpeedLimitsRequest) :
  blocking_call_trace c (fst (doGetSpeedLimits c r)).
Proof.
  rewrite doGetSpeedLimits_eq. unfold blocking_call_trace.
  destruct (NewRequest _ _) as [e0|req]; [by left|]. cbn zeta. right.
  exists (URL_Path (Request_URL req)), (speedLimitsQuery (URL_Query (Request_URL req)) r).
  destruct (Client_generateAuthQuery c _ _ false) as [e1|query] eqn:Hauth.
  - left. cbn. eauto.
  - right.
    exists query, (mkRequest (Request_Method req)
                     (mkURL (URL_Path (Request_URL req)) query)).
    split; [done|]. split; [reflexivity|].
    destruct (Client_httpDo c _) as [e2|resp] eqn:Hdo; cbn; eauto.
Qed.

Lemma blocking_call_trace_counts (c : Client) (t : list event) :
  blocking_call_trace c t ->
  (count_events is_EvGenerateAuthQuery t <= 1)%nat /\
  (count_events is_EvHttpDo t <= 1)%nat /\
  count_events is_EvGo t = 0%nat.
Proof.
  intros [->|(path & q & [[-> _]|(query & req' & _ & _ & [[-> _]|[-> _]])])];
    cbn; lia.
Qed.

(** X4. The trace of either blocking call has one of four shapes: empty;
    the signing call alone, when it failed; the signing call and then the
    transport call, when signing gave a query and the transport failed;
    these two and the closing of the body, when the transport answered.
    So the transport is called only after signing succeeded, on a request
    whose raw query is exactly what the signer returned; signing is
    always asked with [isPost] false; the body is closed exactly when a
    response was received; and no step is ever made twice. *)
Theorem blocking_call_steps `{Runtime} (c : Client) :
  (forall r : SnapToRoadRequest,
     blocking_call_trace c (fst (doGetSnapToRoad c r)) /\
     (count_events is_EvGenerateAuthQuery (fst (doGetSnapToRoad c r)) <= 1)%nat /\
     (count_events is_EvHttpDo (fst (doGetSnapToRoad c r)) <= 1)%nat) /\
  (forall r : SpeedLimitsRequest,
     blocking_call_trace c (fst (doGetSpeedLimits c r)) /\
     (count_events is_EvGenerateAuthQuery (fst (doGetSpeedLimits c r)) <= 1)%nat /\
     (count_events is_EvHttpDo (fst (doGetSpeedLimits c r)) <= 1)%nat).
Proof.
  split; intros r.
  - pose proof (doGetSnapToRoad_trace c r) as Ht. split; [exact Ht|].
    destruct (blocking_call_trace_counts c _ Ht) as (? & ? & _). done.
  - pose proof (doGetSpeedLimits_trace c r) as Ht. split; [exact Ht|].
    destruct (blocking_call_trace_counts c _ Ht) as (? & ? & _). done.
Qed.

Lemma doGetSnapToRoad_transport_error `{Runtime} (c : Client) (r : SnapToRoadRequest)
    (req' : Request) (e : error) :
  In (EvHttpDo req') (fst (doGetSnapToRoad c r)) ->
  Client_httpDo c req' = inl e ->
  exists path q,
    doGetSnapToRoad c r
    = ([EvGenerateAuthQuery path q false; EvHttpDo req'], (None, Some e)).
Proof.
  rewrite doGetSnapToRoad_eq.
  destruct (NewRequest _ _) as [e0|req]; [cbn; intros Hin; destruct Hin|]. cbn zeta.
  destruct (Client_generateAuthQuery c _ _ false) as [e1|query] eqn:Hauth.
  { cbn. intros [Heq|[]]. discriminate. }
  destruct (Client_httpDo c _) as [e2|resp] eqn:Hdo; cbn; intros Hin Hq;
    (destruct Hin as [Heq|[Heq|Hin]]; [discriminate| |]).
  - injection Heq as <-. eexists _, _. repeat f_equal. congruence.
  - destruct Hin.
  - injection Heq as <-. congruence.
  - destruct Hin as [Heq|[]]. discriminate.
Qed.

Lemma doGetSpeedLimits_transport_error `{Runtime} (c : Client) (r : SpeedLimitsRequest)
    (req' : Request) (e : error) :
  In (EvHttpDo req') (fst (doGetSpeedLimits c r)) ->
  Client_httpDo c req' = inl e ->
  exists path q,
    doGetSpeedLimits c r
    = ([EvGenerateAuthQuery path q false; EvHttpDo req'], (None, Some e)).
Proof.
  rewrite doGetSpeedLimits_eq.
  destruct (NewRequest _ _) as [e0|req]; [cbn; intros Hin; destruct Hin|]. cbn zeta.
  destruct (Client_generateAuthQuery c _ _ false) as [e1|query] eqn:Hauth.
  { cbn. intros [Heq|[]]. discriminate. }
  destruct (Client_httpDo c _) as [e2|resp] eqn:Hdo; cbn; intros Hin Hq;
    (destruct Hin as [Heq|[Heq|Hin]]; [discriminate| |]).
  - injection Heq as <-. eexists _, _. repeat f_equal. congruence.
  - destruct Hin.
  - injection Heq as <-. congruence.
  - destruct Hin as [Heq|[]]. discriminate.
Qed.

(** What the caller of a started operation can return when the blocking
    call has result [(None, Some e)]. *)
Lemma started_error_result {T : Type} (ctx : Context) (t : list event) (e : error)
    (s : config T) :
  inv_started ctx t (None, Some e) s ->
  (cfg_worker s = WExited -> returned s = Some (None, Some e)) /\
  (forall res, returned s = Some res ->
     res = (None, Some e) \/
     (cfg_done s = true /\ res = (None, Some (Context_Err ctx)))).
Proof.
  intros Hinv. split.
  - exact (started_exited ctx _ _ s Hinv).
  - intros res Hres.
    destruct (started_returned ctx _ _ s res Hinv Hres) as [[_ ->]|(_ & ? & ->)];
      [by left|by right].
Qed.

(** X5. When the transport call made by [doGetSnapToRoad] or
    [doGetSpeedLimits] fails with [e], the blocking call returns nil and
    that very [e], makes that one transport call and no other, and closes
    no body.  The public operation on a request that passes validation
    then returns [e] itself when it takes the worker's result, the reason
    of the cancellation otherwise. *)
Theorem transport_error_propagates `{Runtime} (c : Client) (ctx : Context)
    (e : error) (req' : Request) :
  Client_httpDo c req' = inl e ->
  (forall r : SnapToRoadRequest,
     In (EvHttpDo req') (fst (doGetSnapToRoad c r)) ->
     snd (doGetSnapToRoad c r) = (None, Some e) /\
     count_events is_EvHttpDo (fst (doGetSnapToRoad c r)) = 1%nat /\
     ~ In EvBodyClose (fst (doGetSnapToRoad c r)) /\
     forall done schedule s,
       SnapToRoadRequest_Path r <> [] ->
       SnapToRoad c ctx r done schedule = Some s ->
       (cfg_worker s = WExited -> returned s = Some (None, Some e)) /\
       (forall res, returned s = Some res ->
          res = (None, Some e) \/
          (cfg_done s = true /\ res = (None, Some (Context_Err ctx))))) /\
  (forall r : SpeedLimitsRequest,
     In (EvHttpDo req') (fst (doGetSpeedLimits c r)) ->
     snd (doGetSpeedLimits c r) = (None, Some e) /\
     count_events is_EvHttpDo (fst (doGetSpeedLimits c r)) = 1%nat /\
     ~ In EvBodyClose (fst (doGetSpeedLimits c r)) /\
     forall done schedule s,
       SpeedLimitsRequest_Path r <> [] \/ SpeedLimitsRequest_PlaceID r <> [] ->
       SpeedLimits c ctx r done schedule = Some s ->
       (cfg_worker s = WExited -> returned s = Some (None, Some e)) /\
       (forall res, returned s = Some res ->
          res = (None, Some e) \/
          (cfg_done s = true /\ res = (None, Some (Context_Err ctx))))).
Proof.
  intros Hdo. split.
  - intros r Hin.
    destruct (doGetSnapToRoad_transport_error c r req' e Hin Hdo) as (path & q & Heq).
    rewrite Heq. cbn [fst snd]. split; [done|]. split; [done|]. split.
    { intros [Hx|[Hx|[]]]; discriminate. }
    intros done schedule s Hne Hex.
    destruct (SnapToRoad_inv c ctx r done schedule s Hex)
      as [(Hp & _)|[_ Hinv]]; [done|].
    rewrite Heq in Hinv. cbn [fst snd] in Hinv.
    exact (started_error_result ctx _ e s Hinv).
  - intros r Hin.
    destruct (doGetSpeedLimits_transport_error c r req' e Hin Hdo) as (path & q & Heq).
    rewrite Heq. cbn [fst snd]. split; [done|]. split; [done|]. split.
    { intros [Hx|[Hx|[]]]; discriminate. }
    intros done schedule s Hne Hex.
    destruct (SpeedLimits_inv c ctx r done schedule s Hex)
      as [(Hp & Hi & _)|[_ Hinv]]; [by destruct Hne|].
    rewrite Heq in Hinv. cbn [fst snd] in Hinv.
    exact (started_error_result ctx _ e s Hinv).
Qed.

Lemma transport_error_propagates_witness :
  snd (@doGetSnapToRoad stub_Runtime
         (stub_Client_transport_fails (opaque "connection refused"))
         (@mkSnapToRoadRequest stub_Runtime [stub_point "1" "2"] false))
  = (None, Some (opaque "connection refused")) /\
  snd (@doGetSpeedLimits stub_Runtime
         (stub_Client_transport_fails (opaque "connection refused"))
         (@mkSpeedLimitsRequest stub_Runtime [] ["a"] ""))
  = (None, Some (opaque "connection refused")).
Proof.
  split.
  - apply (proj1 (@transport_error_propagates stub_Runtime
                    (stub_Client_transport_fails (opaque "connection refused"))
                    (mkContext Canceled) (opaque "connection refused")
                    (mkRequest "GET" (mkURL "http://stub/v1/snapToRoads" "signed"))
                    eq_refl)
             (@mkSnapToRoadRequest stub_Runtime [stub_point "1" "2"] false)).
    right. left. reflexivity.
  - apply (proj2 (@transport_error_propagates stub_Runtime
                    (stub_Client_transport_fails (opaque "connection refused"))
                    (mkContext Canceled) (opaque "connection refused")
                    (mkRequest "GET" (mkURL "http://stub/v1/speedLimits" "signed"))
                    eq_refl)
             (@mkSpeedLimitsRequest stub_Runtime [] ["a"] "")).
    right. left. reflexivity.
Defined.

(** X6. When [http.NewRequest] rejects the URL with [e], the blocking
    call returns nil and that very [e] without signing anything and
    without any transport call.  The public operation on a request that
    passes validation still starts its goroutine, records nothing else,
    and returns [e] when it takes the worker's result. *)
Theorem request_error_propagates `{Runtime} (c : Client) (ctx : Context) (e : error) :
  (forall r : SnapToRoadRequest,
     NewRequest "GET" (baseURL_of c +:+ "/v1/snapToRoads") = inl e ->
     doGetSnapToRoad c r = ([], (None, Some e)) /\
     forall done schedule s,
       SnapToRoadRequest_Path r <> [] ->
       SnapToRoad c ctx r done schedule = Some s ->
       (forall ev, In ev (cfg_trace s) -> ev = EvGo) /\
       (cfg_worker s = WExited -> returned s = Some (None, Some e)) /\
       (forall res, returned s = Some res ->
          res = (None, Some e) \/
          (cfg_done s = true /\ res = (None, Some (Context_Err ctx))))) /\
  (forall r : SpeedLimitsRequest,
     NewRequest "GET" (baseURL_of c +:+ "/v1/speedLimits") = inl e ->
     doGetSpeedLimits c r = ([], (None, Some e)) /\
     forall done schedule s,
       SpeedLimitsRequest_Path r <> [] \/ SpeedLimitsRequest_PlaceID r <> [] ->
       SpeedLimits c ctx r done schedule = Some s ->
       (forall ev, In ev (cfg_trace s) -> ev = EvGo) /\
       (cfg_worker s = WExited -> returned s = Some (None, Some e)) /\
       (forall res, returned s = Some res ->
          res = (None, Some e) \/
          (cfg_done s = true /\ res = (None, Some (Context_Err ctx))))).
Proof.
  split.
  - intros r Hreq.
    assert (Heq : doGetSnapToRoad c r = ([], (None, Some e)))
      by (by rewrite doGetSnapToRoad_eq, Hreq).
    split; [exact Heq|]. intros done schedule s Hne Hex.
    destruct (SnapToRoad_inv c ctx r done schedule s Hex)
      as [(Hp & _)|[_ Hinv]]; [done|].
    rewrite Heq in Hinv. cbn [fst snd] in Hinv. split.
    + intros ev Hev.
      destruct (started_trace_In ctx _ _ s ev Hinv Hev) as [->|[]]. done.
    + exact (started_error_result ctx _ e s Hinv).
  - intros r Hreq.
    assert (Heq : doGetSpeedLimits c r = ([], (None, Some e)))
      by (by rewrite doGetSpeedLimits_eq, Hreq).
    split; [exact Heq|]. intros done schedule s Hne Hex.
    destruct (SpeedLimits_inv c ctx r done schedule s Hex)
      as [(Hp & Hi & _)|[_ Hinv]]; [by destruct Hne|].
    rewrite Heq in Hinv. cbn [fst snd] in Hinv. split.
    + intros ev Hev.
      destruct (started_trace_In ctx _ _ s ev Hinv Hev) as [->|[]]. done.
    + exact (started_error_result ctx _ e s Hinv).
Qed.

Lemma request_error_propagates_witness :
  @doGetSnapToRoad (stub_Runtime_bad_url (opaque "invalid URL"))
    (stub_Client (Document JNull))
    (@mkSnapToRoadRequest (stub_Runtime_bad_url (opaque "invalid URL"))
       [@mkLatLng (stub_Runtime_bad_url (opaque "invalid URL")) "1" "2"] false)
  = ([], (None, Some (opaque "invalid URL"))).
Proof.
  apply (proj1 (@request_error_propagates (stub_Runtime_bad_url (opaque "invalid URL"))
                  (stub_Client (Document JNull)) (mkContext Canceled)
                  (opaque "invalid URL"))).
  reflexivity.
Defined.

(** * Further properties of the decoding *)

Lemma lookupField_SpeedLimitsResponse_none `{Runtime} (key : string) :
  key_matches "speedLimits" key = false ->
  key_matches "snappedPoints" key = false ->
  lookupField SpeedLimitsResponse_fields key = None.
Proof.
  intros H1 H2. destruct (lookupField _ key) as [f|] eqn:Hsome; [|done].
  apply lookupField_Some in Hsome as (name & Hin & Hm).
  unfold SpeedLimitsResponse_fields in Hin. cbn in Hin.
  destruct Hin as [Heq|[Heq|[]]]; injection Heq as <- _; congruence.
Qed.

Lemma decode_members_SpeedLimitsResponse_other `{Runtime}
    (members : list (string * json)) (cur : SpeedLimitsResponse) :
  (forall k v, In (k, v) members ->
     key_matches "speedLimits" k = false /\ key_matches "snappedPoints" k = false) ->
  decode_members decode_SpeedLimitsResponse_field members cur = (cur, None).
Proof.
  revert cur. induction members as [|[k v] members IH]; intros cur Hall; [done|].
  cbn. unfold decode_SpeedLimitsResponse_field at 1.
  destruct (Hall k v (or_introl eq_refl)) as [H1 H2].
  rewrite (lookupField_SpeedLimitsResponse_none k H1 H2).
  rewrite IH; [done|]. intros k' v' Hin. apply (Hall k' v'). by right.
Qed.

(** X7. A body that is the JSON [null], or an object none of whose keys
    matches a field of the response struct (such as an object that only
    describes an error), is not an error for either blocking call: once
    signing and transport have succeeded, the call returns a non-nil
    response without any point or speed limit, and a nil error. *)
Theorem unmatched_body_gives_empty_response `{Runtime} (c : Client) :
  (forall (r : SnapToRoadRequest) (req : Request) (query : string) (b : body),
     NewRequest "GET" (baseURL_of c +:+ "/v1/snapToRoads") = inr req ->
     Client_generateAuthQuery c (URL_Path (Request_URL req))
       (snapToRoadQuery (URL_Query (Request_URL req)) r) false = inr query ->
     Client_httpDo c (mkRequest (Request_Method req)
                        (mkURL (URL_Path (Request_URL req)) query))
     = inr (mkResponse b) ->
     (b = Document JNull \/
      exists members, b = Document (JObject members) /\
        forall k v, In (k, v) members -> key_matches "snappedPoints" k = false) ->
     snd (doGetSnapToRoad c r) = (Some (mkSnapToRoadResponse _ []), None)) /\
  (forall (r : SpeedLimitsRequest) (req : Request) (query : string) (b : body),
     NewRequest "GET" (baseURL_of c +:+ "/v1/speedLimits") = inr req ->
     Client_generateAuthQuery c (URL_Path (Request_URL req))
       (speedLimitsQuery (URL_Query (Request_URL req)) r) false = inr query ->
     Client_httpDo c (mkRequest (Request_Method req)
                        (mkURL (URL_Path (Request_URL req)) query))
     = inr (mkResponse b) ->
     (b = Document JNull \/
      exists members, b = Document (JObject members) /\
        forall k v, In (k, v) members ->
          key_matches "speedLimits" k = false /\
          key_matches "snappedPoints" k = false) ->
     snd (doGetSpeedLimits c r) = (Some (mkSpeedLimitsResponse _ [] []), None)).
Proof.
  split.
  - intros r req query b Hreq Hauth Hdo Hb.
    rewrite doGetSnapToRoad_eq, Hreq. cbn zeta. rewrite Hauth, Hdo.
    cbn [snd Response_Body].
    destruct Hb as [->|(members & -> & Hall)]; [reflexivity|].
    cbn [Decode_SnapToRoadResponse decode_struct].
    rewrite decode_members_SnapToRoadResponse_other; [reflexivity|].
    intros k v Hin. apply lookupField_snappedPoints, (Hall k v Hin).
  - intros r req query b Hreq Hauth Hdo Hb.
    rewrite doGetSpeedLimits_eq, Hreq. cbn zeta. rewrite Hauth, Hdo.
    cbn [snd Response_Body].
    destruct Hb as [->|(members & -> & Hall)]; [reflexivity|].
    cbn [Decode_SpeedLimitsResponse decode_struct].
    by rewrite decode_members_SpeedLimitsResponse_other.
Qed.

Lemma unmatched_body_gives_empty_response_witness :
  snd (@doGetSnapToRoad stub_Runtime
         (stub_Client (Document (JObject [("error", JObject
            [("code", JNumber "403"); ("status", JString "PERMISSION_DENIED")])])))
         (@mkSnapToRoadRequest stub_Runtime [stub_point "1" "2"] false))
  = (Some (@mkSnapToRoadResponse stub_Runtime []), None).
Proof.
  apply (proj1 (@unmatched_body_gives_empty_response stub_Runtime
                  (stub_Client (Document (JObject [("error", JObject
                     [("code", JNumber "403");
                      ("status", JString "PERMISSION_DENIED")])]))))
           (@mkSnapToRoadRequest stub_Runtime [stub_point "1" "2"] false)
           (mkRequest "GET" (mkURL "http://stub/v1/snapToRoads" "")) "signed"
           (Document (JObject [("error", JObject
              [("code", JNumber "403"); ("status", JString "PERMISSION_DENIED")])]))
           eq_refl eq_refl eq_refl).
  right. eexists. split; [reflexivity|].
  intros k v [Heq|[]]. injection Heq as <- _. reflexivity.
Defined.

Lemma ParseInt_range (s : string) (n : Z) :
  ParseInt s = Some n -> - 2 ^ 63 <= n <= 2 ^ 63 - 1.
Proof.
  unfold ParseInt.
  destruct (match s with
            | String "-"%char rest => (true, rest)
            | String "+"%char rest => (false, rest)
            | _ => (false, s)
            end) as [neg ds].
  destruct ds as [|d ds]; [done|].
  destruct (parse_digits (String d ds) 0) as [m|]; [|done].
  destruct ((- 2 ^ 63 <=? _) && (_ <=? 2 ^ 63 - 1)) eqn:Hr; [|done].
  intros [= <-]. apply andb_true_iff in Hr as [H1 H2]. lia.
Qed.

(** The [originalIndex] member last stored decides the field. *)
Lemma decode_SnappedPoint_originalIndex_last `{Runtime}
    (before after : list (string * json)) (v : json) (cur : SnappedPoint) :
  (forall k w, In (k, w) after -> key_matches "originalIndex" k = false) ->
  exists cur1,
    SnappedPoint_OriginalIndex
      (fst (decode_SnappedPoint (JObject (before ++ ("originalIndex", v) :: after)) cur))
    = fst (decode_int_ptr v (SnappedPoint_OriginalIndex cur1)) /\
    (snd (decode_int_ptr v (SnappedPoint_OriginalIndex cur1)) <> None ->
     snd (decode_SnappedPoint (JObject (before ++ ("originalIndex", v) :: after)) cur)
     <> None).
Proof.
  intros Hafter. unfold decode_SnappedPoint, decode_struct.
  rewrite decode_members_app. cbn [fst snd].
  set (cur1 := fst (decode_members decode_SnappedPoint_field before cur)).
  exists cur1. cbn [decode_members].
  replace (decode_SnappedPoint_field "originalIndex" v cur1)
    with (mkSnappedPoint _ (SnappedPoint_Location cur1)
            (fst (decode_int_ptr v (SnappedPoint_OriginalIndex cur1)))
            (SnappedPoint_PlaceID cur1),
          snd (decode_int_ptr v (SnappedPoint_OriginalIndex cur1))).
  2:{ unfold decode_SnappedPoint_field.
      replace (lookupField SnappedPoint_fields "originalIndex")
        with (Some SnappedPoint_originalIndex) by reflexivity.
      by destruct (decode_int_ptr v _). }
  pose proof (decode_members_SnappedPoint_other after
    (mkSnappedPoint _ (SnappedPoint_Location cur1)
       (fst (decode_int_ptr v (SnappedPoint_OriginalIndex cur1)))
       (SnappedPoint_PlaceID cur1))
    (fun k w Hin => lookupField_originalIndex k (Hafter k w Hin))) as Hkeep.
  destruct (decode_members decode_SnappedPoint_field after _) as [a e].
  cbn [fst snd] in *. split; [exact Hkeep|].
  intros Herr.
  destruct (snd (decode_members decode_SnappedPoint_field before cur)); [done|].
  cbn. by destruct (snd (decode_int_ptr v _)).
Qed.

(** X8. What the [originalIndex] member of a point decodes to, when no
    later member matches the field: an integer literal that fits 64 bits
    gives a present index equal to that integer, which is then within
    the 64-bit range; [null] gives an absent index, also when an earlier
    member had set one; a number that is not such an integer, a string, a
    boolean, an array or an object makes the decoder report an error. *)
Theorem OriginalIndex_values `{Runtime} (before after : list (string * json))
    (cur : SnappedPoint) :
  (forall k w, In (k, w) after -> key_matches "originalIndex" k = false) ->
  (forall lit n,
     ParseInt lit = Some n ->
     SnappedPoint_OriginalIndex
       (fst (decode_SnappedPoint
               (JObject (before ++ ("originalIndex", JNumber lit) :: after)) cur))
     = Some n /\ - 2 ^ 63 <= n <= 2 ^ 63 - 1) /\
  SnappedPoint_OriginalIndex
    (fst (decode_SnappedPoint
            (JObject (before ++ ("originalIndex", JNull) :: after)) cur))
  = None /\
  (forall v,
     match v with
     | JNull => False
     | JNumber lit => ParseInt lit = None
     | _ => True
     end ->
     snd (decode_SnappedPoint (JObject (before ++ ("originalIndex", v) :: after)) cur)
     <> None).
Proof.
  intros Hafter. split; [|split].
  - intros lit n Hn. split; [|by eapply ParseInt_range].
    destruct (decode_SnappedPoint_originalIndex_last before after (JNumber lit) cur
                Hafter) as (cur1 & -> & _).
    cbn. by rewrite Hn.
  - destruct (decode_SnappedPoint_originalIndex_last before after JNull cur Hafter)
      as (cur1 & -> & _). reflexivity.
  - intros v Hv.
    destruct (decode_SnappedPoint_originalIndex_last before after v cur Hafter)
      as (cur1 & _ & Herr).
    apply Herr. destruct v as [|b|lit|s|l|l]; cbn; try done. by rewrite Hv.
Qed.

Lemma OriginalIndex_values_witness :
  SnappedPoint_OriginalIndex
    (fst (@decode_SnappedPoint stub_Runtime
            (JObject [("originalIndex", JNumber "0"); ("originalIndex", JNumber "42");
                      ("placeId", JString "p1")])
            (@SnappedPoint_zero stub_Runtime)))
  = Some 42 /\
  SnappedPoint_OriginalIndex
    (fst (@decode_SnappedPoint stub_Runtime
            (JObject [("originalIndex", JNumber "0"); ("originalIndex", JNull);
                      ("placeId", JString "p1")])
            (@SnappedPoint_zero stub_Runtime)))
  = None /\
  snd (@decode_SnappedPoint stub_Runtime
         (JObject [("originalIndex", JNumber "0"); ("originalIndex", JNumber "1.5");
                   ("placeId", JString "p1")])
         (@SnappedPoint_zero stub_Runtime))
  <> None.
Proof.
  destruct (@OriginalIndex_values stub_Runtime
              [("originalIndex", JNumber "0")] [("placeId", JString "p1")]
              (@SnappedPoint_zero stub_Runtime)) as (Hint & Hnull & Herr).
  { intros k w [Heq|[]]. injection Heq as <- _. reflexivity. }
  split; [|split].
  - apply (Hint "42" 42). reflexivity.
  - exact Hnull.
  - apply (Herr (JNumber "1.5")). reflexivity.
Defined.

(** X9. The speed-limits response is read from the body alone.  A speed
    limit object with a string [placeId], a number [speedLimit] the
    float parser accepts and a string [units] decodes to exactly these
    three values, whatever string [units] is; and for a body with the
    two arrays [speedLimits] and [snappedPoints], whatever the request
    was, the response has one speed limit per element of the first and
    one point per element of the second, each decoded into a fresh
    struct. *)
Theorem SpeedLimitsResponse_decoding `{Runtime} :
  (forall (p lit u : string) (f : float64),
     ParseFloat lit = Some f ->
     decode_SpeedLimit
       (JObject [("placeId", JString p); ("speedLimit", JNumber lit);
                 ("units", JString u)]) SpeedLimit_zero
     = (mkSpeedLimit _ p f u, None)) /\
  (forall (c : Client) (r : SpeedLimitsRequest) (req : Request) (query : string)
          (limits points : list json),
     NewRequest "GET" (baseURL_of c +:+ "/v1/speedLimits") = inr req ->
     Client_generateAuthQuery c (URL_Path (Request_URL req))
       (speedLimitsQuery (URL_Query (Request_URL req)) r) false = inr query ->
     Client_httpDo c (mkRequest (Request_Method req)
                        (mkURL (URL_Path (Request_URL req)) query))
     = inr (mkResponse (Document
              (JObject [("speedLimits", JArray limits);
                        ("snappedPoints", JArray points)]))) ->
     exists response err,
       snd (doGetSpeedLimits c r) = (Some response, err) /\
       SpeedLimitsResponse_SpeedLimits response
       = (fun v => fst (decode_SpeedLimit v SpeedLimit_zero)) <$> limits /\
       SpeedLimitsResponse_SnappedPoints response
       = (fun v => fst (decode_SnappedPoint v SnappedPoint_zero)) <$> points).
Proof.
  split.
  - intros p lit u f Hf. unfold decode_SpeedLimit, decode_struct. cbn [decode_members].
    unfold decode_SpeedLimit_field.
    replace (lookupField SpeedLimit_fields "placeId")
      with (Some SpeedLimit_placeId) by reflexivity.
    replace (lookupField SpeedLimit_fields "speedLimit")
      with (Some SpeedLimit_speedLimit) by reflexivity.
    replace (lookupField SpeedLimit_fields "units")
      with (Some SpeedLimit_units) by reflexivity.
    cbn. by rewrite Hf.
  - intros c r req query limits points Hreq Hauth Hdo.
    rewrite doGetSpeedLimits_eq, Hreq. cbn zeta. rewrite Hauth, Hdo.
    cbn [snd Response_Body Decode_SpeedLimitsResponse decode_struct decode_members].
    unfold decode_SpeedLimitsResponse_field.
    replace (lookupField SpeedLimitsResponse_fields "speedLimits")
      with (Some SpeedLimitsResponse_speedLimits) by reflexivity.
    replace (lookupField SpeedLimitsResponse_fields "snappedPoints")
      with (Some SpeedLimitsResponse_snappedPoints) by reflexivity.
    cbn [decode_slice SpeedLimitsResponse_zero SpeedLimitsResponse_SpeedLimits
         SpeedLimitsResponse_SnappedPoints].
    pose proof (decode_elems_fresh decode_SpeedLimit SpeedLimit_zero limits) as Hl.
    pose proof (decode_elems_fresh decode_SnappedPoint SnappedPoint_zero points) as Hp.
    destruct (decode_elems decode_SpeedLimit SpeedLimit_zero limits []) as [ls el].
    cbn [SpeedLimitsResponse_SnappedPoints].
    destruct (decode_elems decode_SnappedPoint SnappedPoint_zero points []) as [ps ep].
    cbn in *. eexists _, _. split; [reflexivity|]. cbn. by subst.
Qed.

Lemma SpeedLimitsResponse_decoding_witness :
  exists response err,
    snd (@doGetSpeedLimits stub_Runtime
           (stub_Client (Document (JObject
              [("speedLimits", JArray [JObject
                  [("placeId", JString "p1"); ("speedLimit", JNumber "65");
                   ("units", JString "MPH")]]);
               ("snappedPoints", JArray [])])))
           (@mkSpeedLimitsRequest stub_Runtime [] ["p1"] ""))
    = (Some response, err) /\
    SpeedLimitsResponse_SpeedLimits response
    = [@mkSpeedLimit stub_Runtime "p1" "65" "MPH"] /\
    SpeedLimitsResponse_SnappedPoints response = [].
Proof.
  destruct (proj2 (@SpeedLimitsResponse_decoding stub_Runtime)
              (stub_Client (Document (JObject
                 [("speedLimits", JArray [JObject
                     [("placeId", JString "p1"); ("speedLimit", JNumber "65");
                      ("units", JString "MPH")]]);
                  ("snappedPoints", JArray [])])))
              (@mkSpeedLimitsRequest stub_Runtime [] ["p1"] "")
              (mkRequest "GET" (mkURL "http://stub/v1/speedLimits" "")) "signed"
              [JObject [("placeId", JString "p1"); ("speedLimit", JNumber "65");
                        ("units", JString "MPH")]] []
              eq_refl eq_refl eq_refl) as (response & err & Hres & Hl & Hp).
  exists response, err. split; [exact Hres|]. split.
  - rewrite Hl. cbn [fmap list_fmap].
    rewrite (proj1 (@SpeedLimitsResponse_decoding stub_Runtime) "p1" "65" "MPH" "65"
               eq_refl).
    reflexivity.
  - rewrite Hp. reflexivity.
Defined.

(** * Further properties of the cancellable call *)

Section Scheduling.
Context {T : Type} (ctx : Context).

(** [ctx.Done()] is closed only by [LCancel]. *)
Lemma exec_not_cancelled (en : entry T) (ls : list label) (s s' : config T) :
  cfg_done s = false ->
  ~ In LCancel ls ->
  exec ctx en ls s = Some s' ->
  cfg_done s' = false.
Proof.
  revert s. induction ls as [|l ls IH]; intros s Hd Hno Hex; cbn in Hex.
  - by simplify_eq.
  - destruct (step ctx en l s) as [s1|] eqn:Hstep; [|done].
    apply (IH s1); [|intros Hin; apply Hno; by right|exact Hex].
    assert (Hl : l <> LCancel) by (intros ->; apply Hno; by left).
    clear IH Hex Hno. destruct s as [m w d tr]. cbn in Hd. subst d.
    unfold step in Hstep. cbn in Hstep.
    destruct l, m, w, en as [?|[? ?]]; cbn in Hstep; by simplify_eq.
Qed.

(** A worker whose caller has returned without receiving never exits. *)
Lemma exec_abandoned (en : entry T) (ls : list label) (s s' : config T)
    (res : result T) :
  cfg_main s = MReturned res ->
  cfg_worker s <> WExited ->
  exec ctx en ls s = Some s' ->
  cfg_main s' = MReturned res /\ cfg_worker s' <> WExited.
Proof.
  revert s. induction ls as [|l ls IH]; intros s Hm Hw Hex; cbn in Hex.
  - by simplify_eq.
  - destruct (step ctx en l s) as [s1|] eqn:Hstep; [|done].
    apply (IH s1); [| |exact Hex]; clear IH Hex;
      destruct s as [m w d tr]; cbn in Hm, Hw; subst m;
      unfold step in Hstep; cbn in Hstep;
      destruct l, w, d, en as [?|[? ?]]; cbn in Hstep; by simplify_eq.
Qed.

Lemma started_exited_trace (t : list event) (v : result T) (s : config T) :
  inv_started ctx t v s ->
  cfg_worker s = WExited ->
  cfg_trace s = EvGo :: t.
Proof.
  unfold inv_started, worker_pending.
  destruct (cfg_main s) as [| |res']; intros Hinv Hw; rewrite Hw in Hinv.
  - by destruct Hinv.
  - by destruct Hinv as [[? _]|[? _]].
  - destruct Hinv as [(_ & _ & ->)|(_ & _ & [[? _]|[? _]])]; done.
Qed.

(** The schedule in which the worker completes and the caller receives. *)
Lemma exec_complete (t : list event) (v : result T) (done : bool) :
  exec ctx (inr (t, v)) [LEnter; LWorker; LRecv] (init done)
  = Some (mkConfig (MReturned v) WExited done (EvGo :: t)).
Proof. reflexivity. Qed.

(** The schedule in which the caller takes the cancellation and the
    worker then runs its call to the end. *)
Lemma exec_cancelled_then_worker (t : list event) (v : result T) :
  exec ctx (inr (t, v)) [LEnter; LDone; LWorker] (init true)
  = Some (mkConfig (MReturned (None, Some (Context_Err ctx))) (WSending v) true
            (EvGo :: t)).
Proof. reflexivity. Qed.

End Scheduling.

Lemma SnapToRoad_entry_started `{Runtime} (c : Client) (r : SnapToRoadRequest) :
  SnapToRoadRequest_Path r <> [] ->
  SnapToRoad_entry c r
  = inr (fst (doGetSnapToRoad c r), snd (doGetSnapToRoad c r)).
Proof.
  intros Hne. unfold SnapToRoad_entry. destruct (decide _) as [Hlen|_].
  - apply length_zero_iff_nil in Hlen. done.
  - by rewrite <- surjective_pairing.
Qed.

Lemma SpeedLimits_entry_started `{Runtime} (c : Client) (r : SpeedLimitsRequest) :
  SpeedLimitsRequest_Path r <> [] \/ SpeedLimitsRequest_PlaceID r <> [] ->
  SpeedLimits_entry c r
  = inr (fst (doGetSpeedLimits c r), snd (doGetSpeedLimits c r)).
Proof.
  intros Hne. unfold SpeedLimits_entry. destruct (decide _) as [[Hp Hi]|_].
  - apply length_zero_iff_nil in Hp, Hi. by destruct Hne.
  - by rewrite <- surjective_pairing.
Qed.

(** X10. With a context that is not cancelled when the operation is
    called and is not cancelled during it, a request that passes
    validation gives the caller exactly what the blocking call returned,
    unchanged: the schedule enter, worker, receive runs to that result,
    and no schedule lets the caller return anything else. *)
Theorem uncancelled_call_returns_result `{Runtime} (c : Client) (ctx : Context) :
  (forall r : SnapToRoadRequest,
     SnapToRoadRequest_Path r <> [] ->
     SnapToRoad c ctx r false [LEnter; LWorker; LRecv]
     = Some (mkConfig (MReturned (snd (doGetSnapToRoad c r))) WExited false
               (EvGo :: fst (doGetSnapToRoad c r))) /\
     forall schedule s res,
       ~ In LCancel schedule ->
       SnapToRoad c ctx r false schedule = Some s ->
       returned s = Some res ->
       res = snd (doGetSnapToRoad c r)) /\
  (forall r : SpeedLimitsRequest,
     SpeedLimitsRequest_Path r <> [] \/ SpeedLimitsRequest_PlaceID r <> [] ->
     SpeedLimits c ctx r false [LEnter; LWorker; LRecv]
     = Some (mkConfig (MReturned (snd (doGetSpeedLimits c r))) WExited false
               (EvGo :: fst (doGetSpeedLimits c r))) /\
     forall schedule s res,
       ~ In LCancel schedule ->
       SpeedLimits c ctx r false schedule = Some s ->
       returned s = Some res ->
       res = snd (doGetSpeedLimits c r)).
Proof.
  split.
  - intros r Hne. unfold SnapToRoad. rewrite (SnapToRoad_entry_started c r Hne).
    split; [apply exec_complete|].
    intros schedule s res Hno Hex Hres.
    pose proof (exec_not_cancelled ctx _ schedule (init false) s eq_refl Hno Hex) as Hd.
    apply exec_started in Hex; [|apply inv_started_init].
    destruct (started_returned ctx _ _ s res Hex Hres) as [[_ ->]|(_ & Hd' & _)];
      [done|congruence].
  - intros r Hne. unfold SpeedLimits. rewrite (SpeedLimits_entry_started c r Hne).
    split; [apply exec_complete|].
    intros schedule s res Hno Hex Hres.
    pose proof (exec_not_cancelled ctx _ schedule (init false) s eq_refl Hno Hex) as Hd.
    apply exec_started in Hex; [|apply inv_started_init].
    destruct (started_returned ctx _ _ s res Hex Hres) as [[_ ->]|(_ & Hd' & _)];
      [done|congruence].
Qed.

Lemma uncancelled_call_returns_result_witness :
  (returned <$> @SnapToRoad stub_Runtime
                  (stub_Client_transport_fails (opaque "connection refused"))
                  (mkContext Canceled)
                  (@mkSnapToRoadRequest stub_Runtime [stub_point "1" "2"] false)
                  false [LEnter; LWorker; LRecv])
  = Some (Some (None, Some (opaque "connection refused"))).
Proof.
  rewrite (proj1 (proj1 (@uncancelled_call_returns_result stub_Runtime
                           (stub_Client_transport_fails (opaque "connection refused"))
                           (mkContext Canceled))
                    (@mkSnapToRoadRequest stub_Runtime [stub_point "1" "2"] false)
                    ltac:(discriminate))).
  reflexivity.
Defined.

(** X11. Once the caller has returned without receiving from the worker
    (it took the cancellation), the goroutine it started never finishes:
    in every continuation of the schedule the worker is still running or
    still blocked in its send on the channel nobody reads, and the
    caller's result stays the reason of the cancellation. *)
Theorem abandoned_worker_never_exits `{Runtime} (c : Client) (ctx : Context)
    (done : bool) (schedule later : list label) :
  (forall (r : SnapToRoadRequest) s s' res,
     SnapToRoadRequest_Path r <> [] ->
     SnapToRoad c ctx r done schedule = Some s ->
     returned s = Some res ->
     cfg_worker s <> WExited ->
     SnapToRoad c ctx r done (schedule ++ later) = Some s' ->
     res = (None, Some (Context_Err ctx)) /\
     returned s' = Some res /\
     (cfg_worker s' = WRunning \/
      cfg_worker s' = WSending (snd (doGetSnapToRoad c r)))) /\
  (forall (r : SpeedLimitsRequest) s s' res,
     SpeedLimitsRequest_Path r <> [] \/ SpeedLimitsRequest_PlaceID r <> [] ->
     SpeedLimits c ctx r done schedule = Some s ->
     returned s = Some res ->
     cfg_worker s <> WExited ->
     SpeedLimits c ctx r done (schedule ++ later) = Some s' ->
     res = (None, Some (Context_Err ctx)) /\
     returned s' = Some res /\
     (cfg_worker s' = WRunning \/
      cfg_worker s' = WSending (snd (doGetSpeedLimits c r)))).
Proof.
  assert (Hgen : forall (T : Type) (t : list event) (v : result T) s s' res,
    exec ctx (inr (t, v)) schedule (init done) = Some s ->
    returned s = Some res ->
    cfg_worker s <> WExited ->
    exec ctx (inr (t, v)) (schedule ++ later) (init done) = Some s' ->
    res = (None, Some (Context_Err ctx)) /\
    returned s' = Some res /\
    (cfg_worker s' = WRunning \/ cfg_worker s' = WSending v)).
  { intros T t v s s' res Hex Hres Hw Hex'.
    pose proof (exec_started ctx t v _ _ s (inv_started_init ctx t v done) Hex) as Hinv.
    pose proof (exec_started ctx t v _ _ s' (inv_started_init ctx t v done) Hex')
      as Hinv'.
    rewrite exec_app, Hex in Hex'.
    assert (Hm : cfg_main s = MReturned res).
    { unfold returned in Hres. destruct (cfg_main s); by simplify_eq. }
    destruct (exec_abandoned ctx _ later s s' res Hm Hw Hex') as [Hm' Hw'].
    destruct (started_returned ctx t v s res Hinv Hres) as [[? _]|(_ & _ & ->)];
      [done|].
    split; [done|]. split; [unfold returned; by rewrite Hm'|].
    unfold inv_started, worker_pending in Hinv'. rewrite Hm' in Hinv'.
    destruct Hinv' as [(? & _)|(_ & _ & [[? _]|[? _]])]; [done|by left|by right]. }
  split.
  - intros r s s' res Hne. unfold SnapToRoad.
    rewrite (SnapToRoad_entry_started c r Hne). apply Hgen.
  - intros r s s' res Hne. unfold SpeedLimits.
    rewrite (SpeedLimits_entry_started c r Hne). apply Hgen.
Qed.

Lemma abandoned_worker_never_exits_witness :
  exists s',
    @SnapToRoad stub_Runtime (stub_Client (Document JNull)) (mkContext Canceled)
      (@mkSnapToRoadRequest stub_Runtime [stub_point "1" "2"] false) false
      ([LEnter; LCancel; LDone] ++ [LWorker]) = Some s' /\
    returned s' = Some (None, Some Canceled) /\
    (cfg_worker s' = WRunning \/
     cfg_worker s' = WSending
       (snd (@doGetSnapToRoad stub_Runtime (stub_Client (Document JNull))
               (@mkSnapToRoadRequest stub_Runtime [stub_point "1" "2"] false)))).
Proof.
  destruct (@SnapToRoad stub_Runtime (stub_Client (Document JNull)) (mkContext Canceled)
              (@mkSnapToRoadRequest stub_Runtime [stub_point "1" "2"] false) false
              ([LEnter; LCancel; LDone] ++ [LWorker])) as [s'|] eqn:Hex;
    [|vm_compute in Hex; discriminate].
  exists s'. split; [reflexivity|].
  destruct (proj1 (@abandoned_worker_never_exits stub_Runtime
                     (stub_Client (Document JNull)) (mkContext Canceled) false
                     [LEnter; LCancel; LDone] [LWorker])
              (@mkSnapToRoadRequest stub_Runtime [stub_point "1" "2"] false)
              (mkConfig (MReturned (None, Some Canceled)) WRunning true [EvGo])
              s' (None, Some Canceled)) as (_ & Hres & Hw).
  - discriminate.
  - reflexivity.
  - reflexivity.
  - discriminate.
  - exact Hex.
  - split; [exact Hres|exact Hw].
Defined.

(** X12. The context is looked at only in the [select].  With a context
    that is already cancelled when the operation is called, a request
    that passes validation still starts its goroutine; and after the
    caller has returned the reason of the cancellation the blocking call
    still runs to its end, with all its signing and transport events. *)
Theorem cancelled_context_still_calls `{Runtime} (c : Client) (ctx : Context) :
  (forall r : SnapToRoadRequest,
     SnapToRoadRequest_Path r <> [] ->
     SnapToRoad c ctx r true [LEnter] = Some (mkConfig MSelect WRunning true [EvGo]) /\
     SnapToRoad c ctx r true [LEnter; LDone; LWorker]
     = Some (mkConfig (MReturned (None, Some (Context_Err ctx)))
               (WSending (snd (doGetSnapToRoad c r))) true
               (EvGo :: fst (doGetSnapToRoad c r)))) /\
  (forall r : SpeedLimitsRequest,
     SpeedLimitsRequest_Path r <> [] \/ SpeedLimitsRequest_PlaceID r <> [] ->
     SpeedLimits c ctx r true [LEnter] = Some (mkConfig MSelect WRunning true [EvGo]) /\
     SpeedLimits c ctx r true [LEnter; LDone; LWorker]
     = Some (mkConfig (MReturned (None, Some (Context_Err ctx)))
               (WSending (snd (doGetSpeedLimits c r))) true
               (EvGo :: fst (doGetSpeedLimits c r)))).
Proof.
  split.
  - intros r Hne. unfold SnapToRoad. rewrite (SnapToRoad_entry_started c r Hne).
    split; [reflexivity|apply exec_cancelled_then_worker].
  - intros r Hne. unfold SpeedLimits. rewrite (SpeedLimits_entry_started c r Hne).
    split; [reflexivity|apply exec_cancelled_then_worker].
Qed.

Lemma cancelled_context_still_calls_witness :
  count_events is_EvHttpDo
    (from_option cfg_trace []
       (@SnapToRoad stub_Runtime (stub_Client (Document JNull)) (mkContext Canceled)
          (@mkSnapToRoadRequest stub_Runtime [stub_point "1" "2"] false) true
          [LEnter; LDone; LWorker]))
  = 1%nat.
Proof.
  rewrite (proj2 (proj1 (@cancelled_context_still_calls stub_Runtime
                           (stub_Client (Document JNull)) (mkContext Canceled))
                    (@mkSnapToRoadRequest stub_Runtime [stub_point "1" "2"] false)
                    ltac:(discriminate))).
  reflexivity.
Defined.

(** X13. An operation starts at most one goroutine and makes at most one
    signing call and at most one transport call, in every schedule: there
    is no retry.  The events recorded are the start of the goroutine and
    events of the blocking call, and when the caller has received from
    the worker they are the start of the goroutine followed by all the
    events of the blocking call. *)
Theorem operation_events `{Runtime} (c : Client) (ctx : Context) (done : bool)
    (schedule : list label) :
  (forall (r : SnapToRoadRequest) s,
     SnapToRoad c ctx r done schedule = Some s ->
     (count_events is_EvGo (cfg_trace s) <= 1)%nat /\
     (count_events is_EvGenerateAuthQuery (cfg_trace s) <= 1)%nat /\
     (count_events is_EvHttpDo (cfg_trace s) <= 1)%nat /\
     (forall ev, In ev (cfg_trace s) ->
        ev = EvGo \/ In ev (fst (doGetSnapToRoad c r))) /\
     (cfg_worker s = WExited -> cfg_trace s = EvGo :: fst (doGetSnapToRoad c r))) /\
  (forall (r : SpeedLimitsRequest) s,
     SpeedLimits c ctx r done schedule = Some s ->
     (count_events is_EvGo (cfg_trace s) <= 1)%nat /\
     (count_events is_EvGenerateAuthQuery (cfg_trace s) <= 1)%nat /\
     (count_events is_EvHttpDo (cfg_trace s) <= 1)%nat /\
     (forall ev, In ev (cfg_trace s) ->
        ev = EvGo \/ In ev (fst (doGetSpeedLimits c r))) /\
     (cfg_worker s = WExited -> cfg_trace s = EvGo :: fst (doGetSpeedLimits c r))).
Proof.
  assert (Hgen : forall (T : Type) (t : list event) (v : result T) (s : config T),
    blocking_call_trace c t ->
    (cfg_trace s = [] /\ cfg_worker s = WNone) \/ inv_started ctx t v s ->
    (count_events is_EvGo (cfg_trace s) <= 1)%nat /\
    (count_events is_EvGenerateAuthQuery (cfg_trace s) <= 1)%nat /\
    (count_events is_EvHttpDo (cfg_trace s) <= 1)%nat /\
    (forall ev, In ev (cfg_trace s) -> ev = EvGo \/ In ev t) /\
    (cfg_worker s = WExited -> cfg_trace s = EvGo :: t)).
  { intros T t v s Ht [[Htr Hw]|Hinv].
    - rewrite Htr, Hw. unfold count_events. cbn.
      split; [lia|]. split; [lia|]. split; [lia|].
      split; [intros ev Hin; destruct Hin|discriminate].
    - destruct (blocking_call_trace_counts c t Ht) as (Ha & Hh & Hg).
      split; [|split; [|split; [|split]]].
      4: exact (fun ev => started_trace_In ctx t v s ev Hinv).
      4: exact (started_exited_trace ctx t v s Hinv).
      all: destruct (started_trace ctx t v s Hinv) as [-> | [-> | ->]];
        unfold count_events in *; cbn; lia. }
  split.
  - intros r s Hex. apply (Hgen _ _ (snd (doGetSnapToRoad c r)));
      [apply doGetSnapToRoad_trace|].
    destruct (SnapToRoad_inv c ctx r done schedule s Hex) as [(_ & ? & ?)|[_ ?]];
      [by left|by right].
  - intros r s Hex. apply (Hgen _ _ (snd (doGetSpeedLimits c r)));
      [apply doGetSpeedLimits_trace|].
    destruct (SpeedLimits_inv c ctx r done schedule s Hex) as [(_ & _ & ? & ?)|[_ ?]];
      [by left|by right].
Qed.

Lemma operation_events_witness :
  exists s,
    @SnapToRoad stub_Runtime (stub_Client (Document JNull)) (mkContext Canceled)
      (@mkSnapToRoadRequest stub_Runtime [stub_point "1" "2"] false) false
      [LEnter; LWorker; LCancel; LRecv] = Some s /\
    (count_events is_EvGo (cfg_trace s) <= 1)%nat /\
    (count_events is_EvHttpDo (cfg_trace s) <= 1)%nat.
Proof.
  destruct (@SnapToRoad stub_Runtime (stub_Client (Document JNull)) (mkContext Canceled)
              (@mkSnapToRoadRequest stub_Runtime [stub_point "1" "2"] false) false
              [LEnter; LWorker; LCancel; LRecv]) as [s|] eqn:Hex;
    [|vm_compute in Hex; discriminate].
  exists s. split; [reflexivity|].
  destruct (proj1 (@operation_events stub_Runtime (stub_Client (Document JNull))
                     (mkContext Canceled) false [LEnter; LWorker; LCancel; LRecv])
              (@mkSnapToRoadRequest stub_Runtime [stub_point "1" "2"] false) s Hex)
    as (Hgo & _ & Hhttp & _).
  split; assumption.
Defined.
